(** * cppdf: the C++ highlighter, line state machine, chunker and theme table

    A shallow embedding of [src/cppdf/cli.py].

    Conventions of the embedding.
    - A Python [str] is a [list ascii]; a character is a code point below 256
      (the character classes are those of Python on that range).  [py "..."]
      turns a literal into such a list.
    - [str.find] returns [option nat]; [None] stands for Python's [-1].
    - A call of [canvas.drawString] is recorded as a [Span]: the text drawn
      and the branch of the highlighter that drew it.  [style_of] gives the
      palette key and the font that branch selects.  The horizontal pen
      position ([x], [stringWidth]) is not part of the model; the order of
      the spans is the order of the calls.  The heights of a block and the
      vertical positions of its lines are given apart, by [wrap_height],
      [draw_height] and [baselines].
    - [THEMES] is a finite map from names to palettes, a palette a finite map
      from keys to colour strings; a missing key ([KeyError]) is [None]. *)

From Stdlib Require Import Ascii String List Bool Arith Lia.
From stdpp Require Import gmap strings.
Import ListNotations.

Local Open Scope nat_scope.
Local Open Scope list_scope.

(** ** Python strings *)

Definition py (s : string) : list ascii := list_ascii_of_string s.

Module Py.

Definition code (c : ascii) : nat := nat_of_ascii c.

Definition in_range (lo hi : nat) (c : ascii) : bool :=
  (lo <=? code c) && (code c <=? hi).

Definition chr_eqb (a b : ascii) : bool := Ascii.eqb a b.

Fixpoint str_eqb (a b : list ascii) : bool :=
  match a, b with
  | [], [] => true
  | x :: a', y :: b' => chr_eqb x y && str_eqb a' b'
  | _, _ => false
  end.

(** [c.isspace()], which is also the class [\s] of a [str] pattern. *)
Definition isspace_chr (c : ascii) : bool :=
  in_range 9 13 c || in_range 28 32 c
  || (code c =? 133) || (code c =? 160).

(** [c.isalnum() or c == "_"]: the class [\w] of a [str] pattern. *)
Definition isword_chr (c : ascii) : bool :=
  in_range 48 57 c || in_range 65 90 c || in_range 97 122 c
  || (code c =? 95)
  || (code c =? 170) || (code c =? 178) || (code c =? 179)
  || (code c =? 181) || (code c =? 185) || (code c =? 186)
  || in_range 188 190 c
  || in_range 192 214 c || in_range 216 246 c || in_range 248 255 c.

(** [s.startswith(p)] *)
Fixpoint startswith (s p : list ascii) {struct p} : bool :=
  match p, s with
  | [], _ => true
  | _ :: _, [] => false
  | x :: p', y :: s' => chr_eqb x y && startswith s' p'
  end.

(** [s.endswith(p)] *)
Definition endswith (s p : list ascii) : bool :=
  startswith (rev s) (rev p).

(** [s.find(sub, start)]: the lowest index [i >= start] at which [sub]
    occurs, [None] for [-1].  [find_at] carries the index of the head of
    what is left of [s]. *)
Fixpoint find_at (sub s : list ascii) (i : nat) : option nat :=
  if startswith s sub then Some i
  else match s with
       | [] => None
       | _ :: s' => find_at sub s' (S i)
       end.

Definition find_from (sub s : list ascii) (start : nat) : option nat :=
  if length s <? start then None
  else find_at sub (skipn start s) start.

Definition find (sub s : list ascii) : option nat := find_from sub s 0.

(** [sub in s] *)
Definition contains (sub s : list ascii) : bool :=
  match find sub s with Some _ => true | None => false end.

(** [s[:n]], [s[n:]] and [s[a:b]] for indices that are not negative. *)
Definition upto {A} (n : nat) (s : list A) : list A := firstn n s.
Definition from {A} (n : nat) (s : list A) : list A := skipn n s.
Definition slice {A} (a b : nat) (s : list A) : list A :=
  firstn (b - a) (skipn a s).

(** [s.isspace()]: not empty and white space only. *)
Definition isspace (s : list ascii) : bool :=
  match s with
  | [] => false
  | _ => forallb isspace_chr s
  end.

Fixpoint lstrip (s : list ascii) : list ascii :=
  match s with
  | c :: s' => if isspace_chr c then lstrip s' else s
  | [] => []
  end.

(** [s.strip()] *)
Definition strip (s : list ascii) : list ascii :=
  rev (lstrip (rev (lstrip s))).

(** [s.split("\n")]: never empty, one more piece than there are newlines. *)
Definition newline : ascii := ascii_of_nat 10.

Fixpoint split_nl (s : list ascii) : list (list ascii) :=
  match s with
  | [] => [[]]
  | c :: s' =>
      if chr_eqb c newline then [] :: split_nl s'
      else match split_nl s' with
           | l :: ls => (c :: l) :: ls
           | [] => [[c]]
           end
  end.

(** ["\n".join(ls)] *)
Fixpoint join_nl (ls : list (list ascii)) : list ascii :=
  match ls with
  | [] => []
  | [l] => l
  | l :: ls' => l ++ newline :: join_nl ls'
  end.

(** [x in xs] for a collection of strings. *)
Definition mem (x : list ascii) (xs : list string) : bool :=
  existsb (fun k => str_eqb x (py k)) xs.

End Py.

(** ** Regular expressions, as Python's backtracking matcher runs them

    Alternatives are tried from left to right, [*] is greedy, and the first
    way of matching that lets the rest of the pattern succeed is the match.
    The continuation [k] is the rest of the pattern; it receives what is left
    of the subject. *)

Module Re.

Inductive re : Type :=
| Eps : re                        (* the empty pattern *)
| Cls : (ascii -> bool) -> re     (* one character of a class *)
| Seq : re -> re -> re            (* r1 r2 *)
| Alt : re -> re -> re            (* r1|r2 *)
| Star : re -> re                 (* r*, greedy *)
| Eos : re.                       (* $ *)

Definition cont := list ascii -> option (list ascii).

(** One more round of [r*] is taken only if it consumed something; [n]
    bounds the rounds and is the length of the subject at the start. *)
Fixpoint star_loop (body : list ascii -> cont -> option (list ascii))
    (k : cont) (n : nat) (s : list ascii) : option (list ascii) :=
  match n with
  | O => k s
  | S n' =>
      match body s (fun s' => if length s' <? length s
                              then star_loop body k n' s' else None) with
      | Some out => Some out
      | None => k s
      end
  end.

Fixpoint run (r : re) (s : list ascii) (k : cont) : option (list ascii) :=
  match r with
  | Eps => k s
  | Cls p => match s with
             | c :: s' => if p c then k s' else None
             | [] => None
             end
  | Seq r1 r2 => run r1 s (fun s' => run r2 s' k)
  | Alt r1 r2 => match run r1 s k with
                 | Some out => Some out
                 | None => run r2 s k
                 end
  | Star r1 => star_loop (run r1) k (length s) s
  | Eos => match s with
           | [] => k s
           | [c] => if Py.chr_eqb c Py.newline then k s else None
           | _ => None
           end
  end.

(** Derived forms. *)
Definition Plus (r : re) : re := Seq r (Star r).
Definition Opt (r : re) : re := Alt r Eps.
Definition Chr (c : ascii) : re := Cls (Py.chr_eqb c).
Definition OneOf (cs : string) : re :=
  Cls (fun c => existsb (Py.chr_eqb c) (py cs)).
Fixpoint Lit (cs : list ascii) : re :=
  match cs with
  | [] => Eps
  | [c] => Chr c
  | c :: cs' => Seq (Chr c) (Lit cs')
  end.
Fixpoint Alts (rs : list re) : re :=
  match rs with
  | [] => Cls (fun _ => false)
  | [r] => r
  | r :: rs' => Alt r (Alts rs')
  end.

(** [re.match(r, s)]: the text matched at the start of [s], if any. *)
Definition match_prefix (r : re) (s : list ascii) : option (list ascii) :=
  match run r s Some with
  | Some rest => Some (firstn (length s - length rest) s)
  | None => None
  end.

(** [re.match(r, s)] as a truth value. *)
Definition matches (r : re) (s : list ascii) : bool :=
  match run r s Some with Some _ => true | None => false end.

(** [re.findall(r, s)] for a pattern without groups: the matches from left
    to right, without overlap; a character at which nothing matches is
    passed over.  [skip] counts the characters of the last match that are
    still to be stepped over, so the scan is structural in the subject.
    After an empty match the scan moves on by one character (the patterns
    of this program never match the empty string, see
    [token_pattern_consumes]). *)
Fixpoint scan (r : re) (s : list ascii) (skip : nat)
    : list (list ascii) :=
  match skip with
  | S skip' =>
      match s with
      | [] => []
      | _ :: s' => scan r s' skip'
      end
  | O =>
      match match_prefix r s with
      | Some tok =>
          tok :: match s with
                 | [] => []
                 | _ :: s' => scan r s' (length tok - 1)
                 end
      | None =>
          match s with
          | [] => []
          | _ :: s' => scan r s' 0
          end
      end
  end.

Definition findall (r : re) (s : list ascii) : list (list ascii) :=
  scan r s 0.

End Re.

(** ** Theme palette definitions *)

Definition palette (kvs : list (string * string)) : gmap string string :=
  list_to_map kvs.

Definition catppuccin_mocha : gmap string string := palette
  [ ("bg", "#1e1e2e"); ("bg_page", "#11111b"); ("border", "#313244");
    ("linenr", "#6c7086"); ("text", "#cdd6f4"); ("text_dim", "#bac2de");
    ("comment", "#6c7086"); ("keyword", "#cba6f7"); ("function", "#89b4fa");
    ("string", "#a6e3a1"); ("number", "#fab387"); ("preproc", "#f5c2e7");
    ("type", "#f9e2af"); ("variable", "#cdd6f4"); ("property", "#89dceb");
    ("operator", "#94e2d5"); ("punctuation", "#bac2de") ].

Definition catppuccin_latte : gmap string string := palette
  [ ("bg", "#eff1f5"); ("bg_page", "#e6e9ef"); ("border", "#ccd0da");
    ("linenr", "#8c8fa1"); ("text", "#4c4f69"); ("text_dim", "#5c5f77");
    ("comment", "#9ca0b0"); ("keyword", "#8839ef"); ("function", "#1e66f5");
    ("string", "#40a02b"); ("number", "#fe640b"); ("preproc", "#ea76cb");
    ("type", "#df8e1d"); ("variable", "#4c4f69"); ("property", "#04a5e5");
    ("operator", "#179299"); ("punctuation", "#5c5f77") ].

Definition kanagawa_wave : gmap string string := palette
  [ ("bg", "#1F1F28"); ("bg_page", "#16161D"); ("border", "#54546D");
    ("linenr", "#54546D"); ("text", "#DCD7BA"); ("text_dim", "#C8C093");
    ("comment", "#727169"); ("keyword", "#957FB8"); ("function", "#7E9CD8");
    ("string", "#98BB6C"); ("number", "#FFA066"); ("preproc", "#E46876");
    ("type", "#E6C384"); ("variable", "#DCD7BA"); ("property", "#7FB4CA");
    ("operator", "#C0A36E"); ("punctuation", "#C8C093") ].

Definition kanagawa_dragon : gmap string string := palette
  [ ("bg", "#181616"); ("bg_page", "#0d0c0c"); ("border", "#625e5a");
    ("linenr", "#625e5a"); ("text", "#c5c9c5"); ("text_dim", "#a6a69c");
    ("comment", "#7a8382"); ("keyword", "#8992a7"); ("function", "#8ba4b0");
    ("string", "#87a987"); ("number", "#b98d7b"); ("preproc", "#c4746e");
    ("type", "#c4b28a"); ("variable", "#c5c9c5"); ("property", "#8ea4a2");
    ("operator", "#b6927b"); ("punctuation", "#9e9b93") ].

Definition kanagawa_lotus : gmap string string := palette
  [ ("bg", "#f2ecbc"); ("bg_page", "#d5cea3"); ("border", "#b5cbd2");
    ("linenr", "#b5cbd2"); ("text", "#545464"); ("text_dim", "#43436c");
    ("comment", "#9fb5c9"); ("keyword", "#8a6596"); ("function", "#6693bf");
    ("string", "#6f894e"); ("number", "#e98a00"); ("preproc", "#c84053");
    ("type", "#836f4a"); ("variable", "#545464"); ("property", "#4e8ca2");
    ("operator", "#8a6596"); ("punctuation", "#625e5a") ].

Definition THEMES : gmap string (gmap string string) :=
  list_to_map
    [ ("catppuccin-mocha", catppuccin_mocha);
      ("catppuccin-latte", catppuccin_latte);
      ("kanagawa-wave", kanagawa_wave);
      ("kanagawa-dragon", kanagawa_dragon);
      ("kanagawa-lotus", kanagawa_lotus) ].

Definition SELECTED_THEME : string := "kanagawa-wave".

(** ** Spans *)

(** The branch of the highlighter that draws a piece of text.  Every branch
    draws with [drawString], except [Whitespace], which only moves the pen. *)
Inductive Category : Type :=
| Keyword | TypeName | StringLit | Number | Preprocessor
| LineComment | BlockComment
| FunctionCall | MemberAccess | NamespaceAccess | PointerOrRef
| Operator | Punctuation | Identifier | Whitespace.

Inductive Font : Type := Courier | CourierBold | CourierOblique.

Record Span : Type := mkSpan { text : list ascii; category : Category }.

(** The palette key of [setFillColor] and the font of [setFont] in each
    branch; the white space branch sets neither. *)
Definition style_of (c : Category) : option (string * Font) :=
  match c with
  | StringLit => Some ("string", Courier)
  | Keyword => Some ("keyword", CourierBold)
  | TypeName => Some ("type", Courier)
  | FunctionCall => Some ("function", Courier)
  | MemberAccess => Some ("property", Courier)
  | NamespaceAccess => Some ("type", Courier)
  | PointerOrRef => Some ("operator", CourierBold)
  | Operator => Some ("operator", Courier)
  | Number => Some ("number", Courier)
  | Punctuation => Some ("punctuation", Courier)
  | Whitespace => None
  | Identifier => Some ("variable", Courier)
  | BlockComment => Some ("comment", CourierOblique)
  | LineComment => Some ("comment", CourierOblique)
  | Preprocessor => Some ("preproc", CourierBold)
  end.

(** [HexColor(theme[key])] for the branch, in the palette [theme]:
    [None] when the branch draws nothing, [Some None] for a [KeyError]. *)
Definition color_of (theme : gmap string string) (c : Category)
    : option (option string) :=
  match style_of c with
  | Some (key, _) => Some (theme !! key)
  | None => None
  end.

(** The palette keys read outside the highlighter's branches: the block
    background, border and line numbers in [draw], the page background and
    the header styles in [create_pdf]. *)
Definition frame_keys : list string :=
  ["bg"; "bg_page"; "border"; "linenr"; "text"; "text_dim"].

(** ** class SyntaxHighlightedCode *)

Definition dquote : ascii := ascii_of_nat 34.
Definition squote : ascii := ascii_of_nat 39.
Definition backslash : ascii := ascii_of_nat 92.

Definition keywords : list string :=
  [ "if"; "else"; "while"; "for"; "do"; "switch"; "case"; "default";
    "break"; "continue"; "return"; "goto"; "const"; "static"; "extern";
    "auto"; "register"; "volatile"; "mutable"; "inline"; "virtual";
    "explicit"; "friend"; "typedef"; "public"; "private"; "protected";
    "class"; "struct"; "union"; "enum"; "namespace"; "using"; "template";
    "typename"; "try"; "catch"; "throw"; "new"; "delete"; "this";
    "const_cast"; "dynamic_cast"; "reinterpret_cast"; "static_cast";
    "true"; "false"; "nullptr" ].

Definition types : list string :=
  [ "int"; "float"; "double"; "char"; "bool"; "void"; "long"; "short";
    "unsigned"; "signed"; "wchar_t"; "char16_t"; "char32_t"; "size_t";
    "ptrdiff_t"; "nullptr_t"; "int8_t"; "int16_t"; "int32_t"; "int64_t";
    "uint8_t"; "uint16_t"; "uint32_t"; "uint64_t"; "string"; "vector";
    "map"; "set"; "list"; "deque"; "array"; "pair"; "tuple"; "unique_ptr";
    "shared_ptr"; "weak_ptr" ].

Section Patterns.
Import Re.

Definition digit_chr (c : ascii) : bool := Py.in_range 48 57 c.
Definition digit : re := Cls digit_chr.                           (* [0-9] *)
Definition hexdigit : re :=                                  (* [0-9a-fA-F] *)
  Cls (fun c => Py.in_range 48 57 c || Py.in_range 97 102 c
                || Py.in_range 65 70 c).
Definition suffix_letter : re := OneOf "fFlLuU".               (* [fFlLuU] *)
Definition ident_start_chr (c : ascii) : bool :=
  Py.in_range 65 90 c || Py.in_range 97 122 c || Py.chr_eqb c "_"%char.
Definition ident_start : re := Cls ident_start_chr.           (* [A-Za-z_] *)
(** The class of the one-character operators. *)
Definition op_chr (c : ascii) : bool :=
  existsb (Py.chr_eqb c) (py "+-*/%=<>!&|^~?:").
Definition word : re := Cls Py.isword_chr.                          (* \w *)
Definition space : re := Cls Py.isspace_chr.                        (* \s *)
Definition any_chr (c : ascii) : bool := negb (Py.chr_eqb c Py.newline).
Definition any : re := Cls any_chr.                      (* . : not a newline *)

(** A literal in quotes [q]: [q], plain characters (neither [q] nor a
    backslash), then any number of rounds of a backslash, any character
    and plain characters, then [q]. *)
Definition plain_chr (q c : ascii) : bool :=
  negb (Py.chr_eqb c q || Py.chr_eqb c backslash).

Definition escape (q : ascii) : re :=
  Seq (Chr backslash) (Seq any (Star (Cls (plain_chr q)))).

Definition quoted (q : ascii) : re :=
  Seq (Chr q)
    (Seq (Star (Cls (plain_chr q)))
       (Seq (Star (escape q))
          (Chr q))).

Definition hex_number : re :=                            (* 0x[0-9a-fA-F]+ *)
  Seq (Chr "0"%char) (Seq (Chr "x"%char) (Plus hexdigit)).

Definition dec_number : re :=                (* [0-9]+\.?[0-9]*[fFlLuU]* *)
  Seq (Plus digit)
    (Seq (Opt (Chr "."%char)) (Seq (Star digit) (Star suffix_letter))).

Definition identifier : re := Seq ident_start (Star word). (* [A-Za-z_]\w* *)

(** The alternatives of the token pattern after the two kinds of quoted
    literal, in their order. *)
Definition plain_alternatives : list re :=
  [ hex_number;
    dec_number;
    identifier;
    Lit (py "::"); Lit (py "->"); Lit (py "++"); Lit (py "--");
    Lit (py "<<"); Lit (py ">>"); Lit (py "<="); Lit (py ">=");
    Lit (py "=="); Lit (py "!="); Lit (py "&&"); Lit (py "||");
    Cls op_chr;
    Chr "("%char; Chr ")"%char; Chr "["%char; Chr "]"%char;
    Chr "{"%char; Chr "}"%char; Chr ";"%char; Chr ","%char;
    Chr "."%char; Chr "#"%char;
    Plus space ].

Definition token_alternatives : list re :=
  quoted dquote :: quoted squote :: plain_alternatives.

Definition token_pattern : re := Alts token_alternatives.

(** [^[A-Za-z_]\w*$] *)
Definition identifier_shape : re := Seq identifier Eos.

(** Anchored at both ends: a hexadecimal number, or digits, an optional
    dot, digits and suffix letters; the class of decimal digits is
    [[0-9]] on the code points of the model. *)
Definition number_shape : re := Seq (Alt hex_number dec_number) Eos.

(** [^\s*#] *)
Definition preprocessor_pattern : re := Seq (Star space) (Chr "#"%char).

End Patterns.

(** The [if]/[elif] chain of the token loop.  [prev_token] and [next_token]
    are [None] where Python has [None]. *)
Definition token_category (prev_token : option (list ascii))
    (token : list ascii) (next_token : option (list ascii)) : Category :=
  let prev_in (xs : list string) :=
    match prev_token with Some p => Py.mem p xs | None => false end in
  if (Py.startswith token [dquote] && Py.endswith token [dquote])
     || (Py.startswith token [squote] && Py.endswith token [squote])
  then StringLit
  else if Py.mem token keywords then Keyword
  else if Py.mem token types then TypeName
  else if Re.matches identifier_shape token
          && match next_token with
             | Some n => negb (Py.str_eqb n [])
                         && Py.str_eqb (Py.strip n) (py "(")
             | None => false
             end
  then FunctionCall
  else if prev_in ["."; "->"] && Re.matches identifier_shape token
  then MemberAccess
  else if prev_in ["::"] && Re.matches identifier_shape token
  then NamespaceAccess
  else if Py.mem token ["*"; "&"; "->"; "::"] then PointerOrRef
  else if Py.mem token
            [ "+"; "-"; "/"; "%"; "="; "<"; ">"; "!"; "|"; "^"; "~"; "?";
              "++"; "--"; "<<"; ">>"; "<="; ">="; "=="; "!="; "&&"; "||" ]
  then Operator
  else if Re.matches number_shape token then Number
  else if Py.mem token ["("; ")"; "["; "]"; "{"; "}"; ";"; ","; "#"]
  then Punctuation
  else if Py.isspace token then Whitespace
  else Identifier.

(** [for i, token in enumerate(tokens)]: the head of what is left of
    [tokens] is [tokens[i]], the next element [tokens[i + 1]].  A white
    space token becomes [prev_token] as it is, any other one stripped. *)
Fixpoint token_loop (prev_token : option (list ascii))
    (tokens : list (list ascii)) : list Span :=
  match tokens with
  | [] => []
  | token :: rest =>
      let next_token := hd_error rest in
      match token_category prev_token token next_token with
      | Whitespace =>
          mkSpan token Whitespace :: token_loop (Some token) rest
      | c =>
          mkSpan token c :: token_loop (Some (Py.strip token)) rest
      end
  end.

Definition tokenize (line : list ascii) : list (list ascii) :=
  Re.findall token_pattern line.

Definition draw_code_tokens (line : list ascii) : list Span :=
  token_loop None (tokenize line).

(** [if s: f(s)] for a string [s]. *)
Definition if_nonempty (s : list ascii) (f : list ascii -> list Span)
    : list Span :=
  match s with [] => [] | _ => f s end.

(** The body of [draw_highlighted_line] below the [if in_block_comment]
    block, that is the method called with [in_block_comment = False]. *)
Definition highlight_code_line (line : list ascii) : list Span * bool :=
  match Py.find (py "/*") line with
  | Some block_comment_start =>
      match Py.find_from (py "*/") line (block_comment_start + 2) with
      | Some block_comment_end =>
          let before := Py.upto block_comment_start line in
          let comment :=
            Py.slice block_comment_start (block_comment_end + 2) line in
          let after := Py.from (block_comment_end + 2) line in
          (if_nonempty before draw_code_tokens
           ++ [mkSpan comment BlockComment]
           ++ if_nonempty after draw_code_tokens,
           false)
      | None =>
          let before := Py.upto block_comment_start line in
          let comment := Py.from block_comment_start line in
          (if_nonempty before draw_code_tokens
           ++ [mkSpan comment BlockComment],
           true)
      end
  | None =>
      if Re.matches preprocessor_pattern line
      then ([mkSpan line Preprocessor], false)
      else
        match Py.find (py "//") line with
        | Some comment_start =>
            let before := Py.upto comment_start line in
            let comment := Py.from comment_start line in
            (if_nonempty before draw_code_tokens
             ++ [mkSpan comment LineComment],
             false)
        | None => (draw_code_tokens line, false)
        end
  end.

(** [draw_highlighted_line]: the spans drawn and the value returned.  The
    method calls itself in one place, with [False] for [in_block_comment];
    that call skips the first block and runs the rest of the body, which is
    [highlight_code_line] and calls nothing.  Its spans are drawn, the
    value it returns is dropped. *)
Definition draw_highlighted_line (line : list ascii) (in_block_comment : bool)
    : list Span * bool :=
  if in_block_comment then
    match Py.find (py "*/") line with
    | Some end_pos =>
        let comment_part := Py.upto (end_pos + 2) line in
        let rest_of_line := Py.from (end_pos + 2) line in
        (mkSpan comment_part BlockComment
         :: if_nonempty rest_of_line (fun r => fst (highlight_code_line r)),
         false)
    | None => ([mkSpan line BlockComment], true)
    end
  else highlight_code_line line.

(** One code block of the document: the arguments of the constructor that
    bear on what is drawn ([width] and [language] do not). *)
Record SyntaxHighlightedCode : Type := mkFlowable {
  code : list ascii;
  start_line : nat;
  is_first_chunk : bool;
  is_last_chunk : bool;
  in_block_comment : bool
}.

(** [self.lines] *)
Definition lines (f : SyntaxHighlightedCode) : list (list ascii) :=
  Py.split_nl (code f).

(** The loop of [draw]: every line with its number and its spans, the
    comment flag going from one line to the next. *)
Fixpoint draw_lines (line_num : nat) (ls : list (list ascii))
    (in_comment : bool) : list (nat * list Span) :=
  match ls with
  | [] => []
  | line :: ls' =>
      let '(spans, in_comment') := draw_highlighted_line line in_comment in
      (line_num, spans) :: draw_lines (S line_num) ls' in_comment'
  end.

Definition draw (f : SyntaxHighlightedCode) : list (nat * list Span) :=
  draw_lines (start_line f) (lines f) (in_block_comment f).

(** ** create_pdf: cutting a file into blocks *)

Definition max_lines_per_chunk : nat := 55.

(** The inner loop over the lines of a chunk. *)
Definition scan_line (in_block_comment : bool) (line : list ascii) : bool :=
  if Py.contains (py "/*") line && negb (Py.contains (py "*/") line)
  then true
  else if Py.contains (py "*/") line then false
  else in_block_comment.

(** [for chunk_idx in range(num_chunks)], over the indices still to come. *)
Fixpoint chunk_loop (all_lines : list (list ascii)) (num_chunks : nat)
    (idxs : list nat) (in_block_comment : bool)
    : list SyntaxHighlightedCode :=
  match idxs with
  | [] => []
  | chunk_idx :: idxs' =>
      let chunk_start := chunk_idx * max_lines_per_chunk in
      let chunk_end :=
        Nat.min (chunk_start + max_lines_per_chunk) (length all_lines) in
      let chunk_lines := Py.slice chunk_start chunk_end all_lines in
      let chunk_code := Py.join_nl chunk_lines in
      let is_first := chunk_idx =? 0 in
      let is_last := chunk_idx =? num_chunks - 1 in
      mkFlowable chunk_code (chunk_start + 1) is_first is_last
        in_block_comment
      :: chunk_loop all_lines num_chunks idxs'
           (fold_left scan_line chunk_lines in_block_comment)
  end.

(** The blocks [create_pdf] appends for one file. *)
Definition chunks (code_content : list ascii) : list SyntaxHighlightedCode :=
  let all_lines := Py.split_nl code_content in
  let num_chunks :=
    (length all_lines + max_lines_per_chunk - 1) / max_lines_per_chunk in
  if max_lines_per_chunk <? length all_lines
  then chunk_loop all_lines num_chunks (seq 0 num_chunks) false
  else [mkFlowable code_content 1 true true false].

(** ** main: the command line

    [sys.argv] is a list of strings; the [print] calls are left out, the
    ways the function ends are the constructors of [Outcome]. *)

(** [s.lower()] on the code points of the model: the capital letters of
    the 7-bit set and of the range from 192 to 222 (without the
    multiplication sign, 215) move up by 32. *)
Definition lower_chr (c : ascii) : ascii :=
  if Py.in_range 65 90 c
     || (Py.in_range 192 222 c && negb (Py.code c =? 215))
  then ascii_of_nat (Py.code c + 32)
  else c.

Fixpoint lower (s : string) : string :=
  match s with
  | EmptyString => EmptyString
  | String c s' => String (lower_chr c) (lower s')
  end.

(** [a in xs] for strings. *)
Definition among (a : string) (xs : list string) : bool :=
  existsb (String.eqb a) xs.

(** The local variables of [main] and the global [SELECTED_THEME]. *)
Record Options : Type := mkOptions {
  code_file : string;
  output_pdf : option string;
  student_name : string;
  assignment_title : string;
  course : string;
  include_project : bool;
  selected_theme : string
}.

Inductive Outcome : Type :=
| Usage                          (* fewer than two arguments: exit status 1 *)
| UnknownTheme (theme : string)  (* exit status 1 *)
| UnknownOption (arg : string)   (* exit status 1 *)
| IndexError                     (* sys.argv[i + 1] past the end *)
| Run (o : Options).             (* create_pdf is called *)

(** The [while] loop: [args] is [sys.argv[i:]]. *)
Fixpoint option_loop (o : Options) (args : list string) : Outcome :=
  match args with
  | [] => Run o
  | a :: rest =>
      if String.eqb a "--theme" then
        match rest with
        | [] => IndexError
        | v :: rest' =>
            let theme := lower v in
            match THEMES !! theme with
            | None => UnknownTheme theme
            | Some _ =>
                option_loop
                  (mkOptions (code_file o) (output_pdf o) (student_name o)
                     (assignment_title o) (course o) (include_project o)
                     theme)
                  rest'
            end
        end
      else if among a ["-o"; "--output"] then
        match rest with
        | [] => IndexError
        | v :: rest' =>
            option_loop
              (mkOptions (code_file o) (Some v) (student_name o)
                 (assignment_title o) (course o) (include_project o)
                 (selected_theme o))
              rest'
        end
      else if among a ["-n"; "--name"] then
        match rest with
        | [] => IndexError
        | v :: rest' =>
            option_loop
              (mkOptions (code_file o) (output_pdf o) v
                 (assignment_title o) (course o) (include_project o)
                 (selected_theme o))
              rest'
        end
      else if among a ["-t"; "--title"] then
        match rest with
        | [] => IndexError
        | v :: rest' =>
            option_loop
              (mkOptions (code_file o) (output_pdf o) (student_name o)
                 v (course o) (include_project o) (selected_theme o))
              rest'
        end
      else if among a ["-c"; "--course"] then
        match rest with
        | [] => IndexError
        | v :: rest' =>
            option_loop
              (mkOptions (code_file o) (output_pdf o) (student_name o)
                 (assignment_title o) v (include_project o)
                 (selected_theme o))
              rest'
        end
      else if String.eqb a "--no-project" then
        option_loop
          (mkOptions (code_file o) (output_pdf o) (student_name o)
             (assignment_title o) (course o) false (selected_theme o))
          rest
      else UnknownOption a
  end.

(** [main], for the value [theme0] of [SELECTED_THEME] when it starts. *)
Definition main_with (theme0 : string) (argv : list string) : Outcome :=
  match argv with
  | _ :: file :: args =>
      option_loop (mkOptions file None "" "" "" true theme0) args
  | _ => Usage
  end.

Definition main (argv : list string) : Outcome :=
  main_with SELECTED_THEME argv.

(** The options that take a value. *)
Definition value_options : list string :=
  [ "--theme"; "-o"; "--output"; "-n"; "--name"; "-t"; "--title";
    "-c"; "--course" ].

(** ** Heights of a block

    [wrap] and the first lines of [draw], in points. *)

Definition line_height : Z := 11.

(** The height [wrap] returns. *)
Definition wrap_height (f : SyntaxHighlightedCode) : Z :=
  Z.of_nat (length (lines f)) * line_height + 12 + 12.

Definition padding_top (f : SyntaxHighlightedCode) : Z :=
  if is_first_chunk f then 10 else 5.

Definition padding_bottom (f : SyntaxHighlightedCode) : Z :=
  if is_last_chunk f then 10 else 5.

(** [total_height] in [draw]: the height of the background and of the
    borders at the sides. *)
Definition draw_height (f : SyntaxHighlightedCode) : Z :=
  Z.of_nat (length (lines f)) * line_height
  + padding_top f + padding_bottom f.

(** The values of [y_position] at which the lines are drawn. *)
Fixpoint baselines_from (y : Z) (ls : list (list ascii)) : list Z :=
  match ls with
  | [] => []
  | _ :: ls' => y :: baselines_from (y - line_height) ls'
  end.

Definition baselines (f : SyntaxHighlightedCode) : list Z :=
  baselines_from
    (Z.of_nat (length (lines f)) * line_height + padding_top f - 5)
    (lines f).

(** ** Vocabulary of the statements *)

(** The categories the token loop can give. *)
Definition code_category (c : Category) : Prop :=
  c <> BlockComment /\ c <> LineComment /\ c <> Preprocessor.

(** [sub] occurs in [s]. *)
Definition occurs (sub s : list ascii) : Prop :=
  exists pre post, s = pre ++ sub ++ post.

(** The keys of a palette. *)
Definition palette_keys : list string :=
  [ "bg"; "bg_page"; "border"; "linenr"; "text"; "text_dim"; "comment";
    "keyword"; "function"; "string"; "number"; "preproc"; "type";
    "variable"; "property"; "operator"; "punctuation" ].

(** The line [std::string s = "http://x.com";]. *)
Definition url_line : list ascii :=
  py "std::string s = " ++ dquote :: py "http://x.com" ++ dquote :: py ";".

(** A line has no newline in it. *)
Definition one_line (l : list ascii) : Prop := ~ In Py.newline l.

(** *** The chunker's heuristic in the words of the specification

    Section 4.4: a line containing [/*] without a later [*/] sets the
    running flag true; a line containing [*/] clears it.  The two sentences
    are read in their order, the first that applies decides; [/*] is
    without a later [*/] when no [*/] stands after it. *)

Fixpoint open_without_later_close (line : list ascii) : bool :=
  match line with
  | [] => false
  | _ :: rest =>
      (Py.startswith line (py "/*")
       && negb (Py.contains (py "*/") (Py.from 2 line)))
      || open_without_later_close rest
  end.

Definition spec_scan_line (flag : bool) (line : list ascii) : bool :=
  if open_without_later_close line then true
  else if Py.contains (py "*/") line then false
  else flag.

(** The entry state of a chunk: the scan of all lines before it, from the
    state [Normal] at the start of the file. *)
Definition spec_entry_state (preceding : list (list ascii)) : bool :=
  fold_left spec_scan_line preceding false.

(** The lines of the file before the block [f]. *)
Definition preceding_lines (code_content : list ascii)
    (f : SyntaxHighlightedCode) : list (list ascii) :=
  Py.upto (start_line f - 1) (Py.split_nl code_content).

(** No [*/] of the line stands only before a [/*] that stays open. *)
Definition close_not_before_open (line : list ascii) : Prop :=
  open_without_later_close line = true -> ~ occurs (py "*/") line.

(** A file of 56 lines whose first line is [*/ x /*]. *)
Definition reopening_file : list ascii :=
  Py.join_nl (py "*/ x /*" :: repeat [] 55).

(** A file of 56 lines whose first line opens a comment. *)
Definition open_comment_file : list ascii :=
  Py.join_nl (py "/* open" :: repeat [] 55).

(** *** What a pattern can match

    [lang r w]: the text [w] is in the language of [r].  The matcher only
    ever returns texts of the language ([run_sound]); which of them it
    returns is a matter of its order of trial. *)

Inductive star_lang (L : list ascii -> Prop) : list ascii -> Prop :=
| star_lang_nil : star_lang L []
| star_lang_app u v : L u -> star_lang L v -> star_lang L (u ++ v).

Fixpoint lang (r : Re.re) (w : list ascii) : Prop :=
  match r with
  | Re.Eps => w = []
  | Re.Cls p => exists c, w = [c] /\ p c = true
  | Re.Seq r1 r2 => exists u v, w = u ++ v /\ lang r1 u /\ lang r2 v
  | Re.Alt r1 r2 => lang r1 w \/ lang r2 w
  | Re.Star r1 => star_lang (lang r1) w
  | Re.Eos => w = []
  end.

(** All characters, and inclusion of a class in another. *)
Definition all_chars : list ascii := map ascii_of_nat (seq 0 256).

Definition subclass (p q : ascii -> bool) : bool :=
  forallb (fun c => implb (p c) (q c)) all_chars.

Section Analyses.
Import Re.

(** Every text of the language has a character. *)
Fixpoint consumes (r : re) : bool :=
  match r with
  | Cls _ => true
  | Seq r1 r2 => consumes r1 || consumes r2
  | Alt r1 r2 => consumes r1 && consumes r2
  | Eps | Star _ | Eos => false
  end.

(** Every character of every text of the language is in the class [q]. *)
Fixpoint within (q : ascii -> bool) (r : re) : bool :=
  match r with
  | Cls p => subclass p q
  | Seq r1 r2 | Alt r1 r2 => within q r1 && within q r2
  | Star r1 => within q r1
  | Eps | Eos => true
  end.

(** The first character of every text of the language that has one is in
    the class [q]. *)
Fixpoint starts_in (q : ascii -> bool) (r : re) : bool :=
  match r with
  | Cls p => subclass p q
  | Seq r1 r2 => starts_in q r1 && (consumes r1 || starts_in q r2)
  | Alt r1 r2 => starts_in q r1 && starts_in q r2
  | Star r1 => starts_in q r1
  | Eps | Eos => true
  end.

(** The same for the last character. *)
Fixpoint ends_in (q : ascii -> bool) (r : re) : bool :=
  match r with
  | Cls p => subclass p q
  | Seq r1 r2 => ends_in q r2 && (consumes r2 || ends_in q r1)
  | Alt r1 r2 => ends_in q r1 && ends_in q r2
  | Star r1 => ends_in q r1
  | Eps | Eos => true
  end.

(** The pattern matches at every position when what follows it does. *)
Fixpoint never_fails (r : re) : bool :=
  match r with
  | Eps | Star _ => true
  | Seq r1 r2 => never_fails r1 && never_fails r2
  | Alt r1 r2 => never_fails r1 || never_fails r2
  | Cls _ | Eos => false
  end.

End Analyses.

(** The first character of [w], if there is one, is in the class [q]. *)
Definition head_in (q : ascii -> bool) (w : list ascii) : Prop :=
  match w with [] => True | c :: _ => q c = true end.

Definition not_space (c : ascii) : bool := negb (Py.isspace_chr c).

Definition not_quote (c : ascii) : bool :=
  negb (Py.chr_eqb c dquote || Py.chr_eqb c squote).

(** A token is white space only, or has no white space at either end. *)
Definition trimmed (tok : list ascii) : Prop :=
  Py.isspace tok = true \/ Py.strip tok = tok.

(** An alternative whose texts are trimmed: they have a character, and
    either begin and end outside white space or are white space only. *)
Definition trimmed_alternative (r : Re.re) : bool :=
  consumes r
  && ((starts_in not_space r && ends_in not_space r)
      || within Py.isspace_chr r).

(** *** Lines the tokenizer keeps whole *)

(** The separators of rule 6. *)
Definition punct_chr (c : ascii) : bool :=
  existsb (Py.chr_eqb c) (py "()[]{};,.#").

(** A character that is a token, or starts one, wherever it stands: a
    digit, a letter or underscore of the 7-bit set, a one-character operator,
    a separator, white space. *)
Definition lexical_chr (c : ascii) : bool :=
  digit_chr c || ident_start_chr c || op_chr c || punct_chr c
  || Py.isspace_chr c.

(** The characters the rules of section 4.1 are written with, in the 7-bit
    range: the ones above, the two quotes and the backslash of rule 1. *)
Definition covered_chr (c : ascii) : bool :=
  (Py.code c <? 128)
  && (lexical_chr c || Py.chr_eqb c dquote || Py.chr_eqb c squote
      || Py.chr_eqb c backslash).

(** What follows the opening quote [q] of a complete literal, up to and with
    the closing quote. *)
Inductive literal_tail (q : ascii) : list ascii -> Prop :=
| tail_close : literal_tail q [q]
| tail_plain c t :
    plain_chr q c = true -> literal_tail q t -> literal_tail q (c :: t)
| tail_escape c t :
    any_chr c = true -> literal_tail q t ->
    literal_tail q (backslash :: c :: t).

(** A line of lexical characters and complete literals. *)
Inductive lexable : list ascii -> Prop :=
| lex_nil : lexable []
| lex_chr c s : lexical_chr c = true -> lexable s -> lexable (c :: s)
| lex_lit q t s :
    q = dquote \/ q = squote -> literal_tail q t -> lexable s ->
    lexable (q :: t ++ s).

(** The line made of a double quote and [abc]: the quote is never closed. *)
Definition unclosed_line : list ascii := dquote :: py "abc".

(** An assignment with a string literal that holds an escaped quote, and a
    character literal. *)
Definition quoted_line : list ascii :=
  py "s = " ++ dquote :: py "a\" ++ dquote :: py "b" ++ dquote
  :: py " + 'c';".

(** *** Vocabulary of the further properties *)

(** How a line falls into tokens: each token is a text of the pattern, not
    empty, and stands where the one before ended or after characters that
    were passed over; a character is passed over only if it is no lexical
    character. *)
Inductive lexed : list ascii -> list (list ascii) -> Prop :=
| lexed_nil : lexed [] []
| lexed_token tok rest toks :
    tok <> [] -> lang token_pattern tok -> lexed rest toks ->
    lexed (tok ++ rest) (tok :: toks)
| lexed_pass c rest toks :
    lexical_chr c = false -> lexed rest toks -> lexed (c :: rest) toks.

(** The longest prefix in a class, and what follows it. *)
Fixpoint take_while (p : ascii -> bool) (s : list ascii) : list ascii :=
  match s with
  | c :: s' => if p c then c :: take_while p s' else []
  | [] => []
  end.

Fixpoint drop_while (p : ascii -> bool) (s : list ascii) : list ascii :=
  match s with
  | c :: s' => if p c then drop_while p s' else s
  | [] => []
  end.

(** No text of the language of [r] starts with [c], and the empty text is
    not in it. *)
Fixpoint rejects (r : Re.re) (c : ascii) : bool :=
  match r with
  | Re.Cls p => negb (p c)
  | Re.Seq r1 _ => rejects r1 c
  | Re.Alt r1 r2 => rejects r1 c && rejects r2 c
  | Re.Eps | Re.Star _ | Re.Eos => false
  end.

(** Every character of the class [p] is rejected by all of [rs]. *)
Definition class_rejected (p : ascii -> bool) (rs : list Re.re) : bool :=
  forallb (fun c => implb (p c) (forallb (fun r => rejects r c) rs))
    all_chars.

(** The operators of two characters, in the order of the pattern. *)
Definition two_char_operators : list string :=
  [ "::"; "->"; "++"; "--"; "<<"; ">>"; "<="; ">="; "=="; "!="; "&&"; "||" ].

(** The token loop without [strip] and without the special case for white
    space: every token is classified with the elements of the stream next
    to it. *)
Fixpoint classify_with (prev : option (list ascii))
    (tokens : list (list ascii)) : list Span :=
  match tokens with
  | [] => []
  | token :: rest =>
      mkSpan token (token_category prev token (hd_error rest))
      :: classify_with (Some token) rest
  end.

(** Some string of [xs] starts with the character [c]. *)
Definition head_among (xs : list string) (c : ascii) : bool :=
  existsb (fun k => match py k with
                    | d :: _ => Py.chr_eqb c d
                    | [] => false
                    end) xs.

(** The test of the first branch of the token loop. *)
Definition in_quotes (token : list ascii) : bool :=
  (Py.startswith token [dquote] && Py.endswith token [dquote])
  || (Py.startswith token [squote] && Py.endswith token [squote]).

(** The token starts with a quote. *)
Definition opens_quote (token : list ascii) : bool :=
  Py.startswith token [dquote] || Py.startswith token [squote].

(** An alternative whose texts start with no quote, or start and end with
    the same quote. *)
Definition quote_closed_alternative (r : Re.re) : bool :=
  starts_in not_quote r
  || (consumes r
      && ((starts_in (Py.chr_eqb dquote) r && ends_in (Py.chr_eqb dquote) r)
          || (starts_in (Py.chr_eqb squote) r
              && ends_in (Py.chr_eqb squote) r))).

(** The text that a list of spans puts on the line. *)
Definition span_text (spans : list Span) : list ascii :=
  concat (map text spans).

(** A line cut into pieces, each drawn as it is ([false]) or given to the
    token loop ([true]); [render] is the text that reaches the canvas. *)
Definition render (pieces : list (bool * list ascii)) : list ascii :=
  concat (map (fun p : bool * list ascii =>
                 if fst p then concat (tokenize (snd p)) else snd p)
            pieces).

(** Read in state [Normal], the line opens a comment and leaves it open:
    the test behind [return True] in that state. *)
Definition leaves_open (line : list ascii) : bool :=
  match Py.find (py "/*") line with
  | Some start =>
      match Py.find_from (py "*/") line (start + 2) with
      | Some _ => false
      | None => true
      end
  | None => false
  end.

(** The state the loop of [draw] has after the lines [ls], entered in the
    state [st]. *)
Definition line_state (st : bool) (ls : list (list ascii)) : bool :=
  fold_left (fun st line => snd (draw_highlighted_line line st)) ls st.

(** The flag of [create_pdf] after a line differs from the state of [draw]
    only after a line that leaves a comment open and holds a [*/] too;
    [steady] lines are the others. *)
Definition steady (line : list ascii) : Prop :=
  leaves_open line = true -> Py.contains (py "*/") line = false.

(** The block that [create_pdf] builds for the chunk index [i]. *)
Definition chunk_at (all_lines : list (list ascii)) (num_chunks i : nat)
    : SyntaxHighlightedCode :=
  mkFlowable
    (Py.join_nl
       (Py.slice (i * max_lines_per_chunk)
          (Nat.min (i * max_lines_per_chunk + max_lines_per_chunk)
             (length all_lines))
          all_lines))
    (i * max_lines_per_chunk + 1)
    (i =? 0) (i =? num_chunks - 1)
    (fold_left scan_line (Py.upto (i * max_lines_per_chunk) all_lines) false).

(** The lines of the chunk index [i]. *)
Definition lines_at (all_lines : list (list ascii)) (i : nat)
    : list (list ascii) :=
  firstn max_lines_per_chunk (skipn (i * max_lines_per_chunk) all_lines).

(** A file drawn as one block. *)
Definition whole_file (code_content : list ascii) : SyntaxHighlightedCode :=
  mkFlowable code_content 1 true true false.

(** The pattern has no [$] in it. *)
Fixpoint no_eos (r : Re.re) : bool :=
  match r with
  | Re.Eos => false
  | Re.Seq r1 r2 | Re.Alt r1 r2 => no_eos r1 && no_eos r2
  | Re.Star r1 => no_eos r1
  | Re.Eps | Re.Cls _ => true
  end.

Definition not_digit (c : ascii) : bool := negb (digit_chr c).

(** The token starts with a digit. *)
Definition starts_with_digit (token : list ascii) : bool :=
  match token with
  | c :: _ => digit_chr c
  | [] => false
  end.

(** The element of the stream is the token [k]. *)
Definition is_token (t : option (list ascii)) (k : string) : bool :=
  match t with
  | Some x => Py.str_eqb x (py k)
  | None => false
  end.

(** How a name that is in neither vocabulary is drawn, from the elements
    of the stream right before and after it. *)
Definition name_category (prev next : option (list ascii)) : Category :=
  if is_token next "(" then FunctionCall
  else if is_token prev "." || is_token prev "->" then MemberAccess
  else if is_token prev "::" then NamespaceAccess
  else Identifier.

(** The token starts with a letter of the 7-bit set or an underscore. *)
Definition starts_name (token : list ascii) : bool :=
  match token with
  | c :: _ => ident_start_chr c
  | [] => false
  end.

Definition not_ident_start (c : ascii) : bool := negb (ident_start_chr c).

(** * Properties *)

(** ** Python strings *)

Lemma chr_eqb_eq a b : Py.chr_eqb a b = true <-> a = b.
Proof. unfold Py.chr_eqb. apply Ascii.eqb_eq. Qed.

Lemma str_eqb_eq a b : Py.str_eqb a b = true <-> a = b.
Proof.
  revert b. induction a as [|x a IH]; intros [|y b]; simpl;
    try (split; [discriminate | congruence]); try tauto.
  rewrite andb_true_iff, chr_eqb_eq, IH. split.
  - intros [-> ->]. reflexivity.
  - intros E. inversion E. auto.
Qed.

Lemma startswith_iff s p :
  Py.startswith s p = true <-> exists post, s = p ++ post.
Proof.
  revert s. induction p as [|x p IH]; intros s; simpl.
  - split; [intros _; exists s; reflexivity | reflexivity].
  - destruct s as [|y s].
    + split; [discriminate | intros [post E]; discriminate].
    + rewrite andb_true_iff, chr_eqb_eq, IH. split.
      * intros [-> [post ->]]. eauto.
      * intros [post E]. inversion E. eauto.
Qed.

Lemma occurs_cons sub c s :
  occurs sub (c :: s) <-> Py.startswith (c :: s) sub = true \/ occurs sub s.
Proof.
  split.
  - intros [[|d pre] [post E]].
    + left. apply startswith_iff. eauto.
    + right. inversion E. exists pre, post. reflexivity.
  - intros [H | [pre [post ->]]].
    + apply startswith_iff in H as [post E]. exists [], post. exact E.
    + exists (c :: pre), post. reflexivity.
Qed.

Lemma occurs_nil sub : occurs sub [] <-> sub = [].
Proof.
  split.
  - intros [pre [post E]]. symmetry in E.
    apply app_eq_nil in E as [_ E]. apply app_eq_nil in E as [E _]. exact E.
  - intros ->. exists [], []. reflexivity.
Qed.

Lemma find_at_None sub s i : Py.find_at sub s i = None <-> ~ occurs sub s.
Proof.
  revert i. induction s as [|c s IH]; intros i.
  - cbn [Py.find_at]. rewrite occurs_nil.
    destruct sub; simpl; split; try discriminate; try congruence.
  - cbn [Py.find_at]. rewrite occurs_cons.
    destruct (Py.startswith (c :: s) sub) eqn:E.
    + split; [discriminate | intros H; exfalso; apply H; left; reflexivity].
    + rewrite IH. split.
      * intros H [H' | H']; [discriminate | auto].
      * intros H H'. apply H. right. exact H'.
Qed.

Lemma find_unfold sub s : Py.find sub s = Py.find_at sub s 0.
Proof. reflexivity. Qed.

Lemma find_None sub s : Py.find sub s = None <-> ~ occurs sub s.
Proof. rewrite find_unfold. apply find_at_None. Qed.

Lemma find_Some sub s : occurs sub s -> exists i, Py.find sub s = Some i.
Proof.
  intros H. destruct (Py.find sub s) eqn:E; eauto.
  apply find_None in E. contradiction.
Qed.

Lemma find_at_Some sub s i j :
  Py.find_at sub s i = Some j ->
  exists pre post, s = pre ++ sub ++ post /\ j = i + length pre.
Proof.
  revert i. induction s as [|c s IH]; intros i; cbn [Py.find_at].
  - destruct (Py.startswith [] sub) eqn:E; [|discriminate].
    intros [= <-]. apply startswith_iff in E as [post E].
    exists [], post. simpl. split; [exact E | lia].
  - destruct (Py.startswith (c :: s) sub) eqn:E.
    + intros [= <-]. apply startswith_iff in E as [post E].
      exists [], post. simpl. split; [exact E | lia].
    + intros H. apply IH in H as [pre [post [-> ->]]].
      exists (c :: pre), post. simpl. split; [reflexivity | lia].
Qed.

Lemma find_Some_occurs sub s i : Py.find sub s = Some i -> occurs sub s.
Proof.
  rewrite find_unfold. intros H.
  apply find_at_Some in H as [pre [post [E _]]]. exists pre, post. exact E.
Qed.

Lemma contains_true sub s : Py.contains sub s = true <-> occurs sub s.
Proof.
  unfold Py.contains. destruct (Py.find sub s) eqn:E.
  - split; [intros _ | reflexivity]. eapply find_Some_occurs, E.
  - apply find_None in E. split; [discriminate | contradiction].
Qed.

Lemma contains_false sub s : Py.contains sub s = false <-> ~ occurs sub s.
Proof.
  rewrite <- contains_true. destruct (Py.contains sub s); split; congruence.
Qed.

Lemma find_split sub s i :
  Py.find sub s = Some i ->
  exists pre post,
    s = pre ++ sub ++ post /\ i = length pre
    /\ Py.upto i s = pre /\ Py.from i s = sub ++ post.
Proof.
  rewrite find_unfold. intros H.
  apply find_at_Some in H as [pre [post [-> ->]]].
  exists pre, post. unfold Py.upto, Py.from. simpl.
  repeat split.
  - rewrite firstn_app, Nat.sub_diag, firstn_all. simpl. apply app_nil_r.
  - rewrite skipn_app, Nat.sub_diag, skipn_all. reflexivity.
Qed.

(** ** The token loop draws no comment and no directive *)

Lemma token_category_code prev token next :
  code_category (token_category prev token next).
Proof.
  unfold token_category, code_category.
  repeat match goal with
         | |- context [if ?b then _ else _] => destruct b
         end; repeat split; discriminate.
Qed.

Lemma token_loop_code tokens :
  forall prev, Forall (fun sp => code_category (category sp))
                 (token_loop prev tokens).
Proof.
  induction tokens as [|t ts IH]; intros prev; simpl.
  - constructor.
  - pose proof (token_category_code prev t (hd_error ts)) as H.
    destruct (token_category prev t (hd_error ts));
      constructor; simpl; auto;
      destruct H as [H1 [H2 H3]]; congruence.
Qed.

Lemma draw_code_tokens_code line :
  Forall (fun sp => code_category (category sp)) (draw_code_tokens line).
Proof. apply token_loop_code. Qed.

(** ** The line state machine *)

(** C2. Comment continuation: a line that is entered inside a block comment
    and holds no [*/] is drawn as one [BlockComment] span with the whole line
    as its text, and [draw_highlighted_line] returns [True]. *)
Theorem comment_continuation (line : list ascii) :
  ~ occurs (py "*/") line ->
  draw_highlighted_line line true = ([mkSpan line BlockComment], true).
Proof.
  intros H. apply find_None in H.
  unfold draw_highlighted_line. rewrite H. reflexivity.
Qed.

Lemma comment_continuation_witness :
  ~ occurs (py "*/") (py "   still inside * / the comment")
  /\ draw_highlighted_line (py "   still inside * / the comment") true
     = ([mkSpan (py "   still inside * / the comment") BlockComment], true).
Proof.
  assert (H : ~ occurs (py "*/") (py "   still inside * / the comment"))
    by (apply find_None; reflexivity).
  split; [exact H | exact (comment_continuation _ H)].
Defined.

(** C5. A line that is entered inside a block comment and holds [*/] leaves
    the state [Normal]: the text up to and with the first [*/] is one
    [BlockComment] span, what follows is drawn by the rules for a line in
    state [Normal], and [draw_highlighted_line] returns [False] whatever
    state those rules reach, also when the text after the [*/] opens a
    comment again. *)
Theorem exit_after_closing_is_normal (line : list ascii) :
  occurs (py "*/") line ->
  exists end_pos,
    Py.find (py "*/") line = Some end_pos
    /\ draw_highlighted_line line true
       = (mkSpan (Py.upto (end_pos + 2) line) BlockComment
          :: if_nonempty (Py.from (end_pos + 2) line)
               (fun rest => fst (draw_highlighted_line rest false)),
          false).
Proof.
  intros H. apply find_Some in H as [end_pos H]. exists end_pos.
  split; [exact H|].
  unfold draw_highlighted_line. rewrite H. reflexivity.
Qed.

Lemma exit_after_closing_is_normal_witness :
  occurs (py "*/") (py "done */ int x; /* opened again")
  /\ snd (draw_highlighted_line (py " int x; /* opened again") false) = true
  /\ exists end_pos,
       Py.find (py "*/") (py "done */ int x; /* opened again")
       = Some end_pos
       /\ draw_highlighted_line (py "done */ int x; /* opened again") true
          = (mkSpan
               (Py.upto (end_pos + 2) (py "done */ int x; /* opened again"))
               BlockComment
             :: if_nonempty
                  (Py.from (end_pos + 2)
                     (py "done */ int x; /* opened again"))
                  (fun rest => fst (draw_highlighted_line rest false)),
             false).
Proof.
  assert (H : occurs (py "*/") (py "done */ int x; /* opened again"))
    by (exists (py "done "), (py " int x; /* opened again"); reflexivity).
  split; [exact H|]. split; [reflexivity|].
  exact (exit_after_closing_is_normal _ H).
Defined.

(** C10. Entered in state [Normal], a line without [/*] leaves the state
    [Normal] (directive, line comment or plain code alike), and the method
    returns [True] exactly when the line holds a [/*] and no [*/] is found
    from two characters after the first [/*] on. *)
Theorem normal_exit_states (line : list ascii) :
  (~ occurs (py "/*") line ->
   snd (draw_highlighted_line line false) = false)
  /\ (snd (draw_highlighted_line line false) = true <->
      exists start, Py.find (py "/*") line = Some start
                    /\ Py.find_from (py "*/") line (start + 2) = None).
Proof.
  unfold draw_highlighted_line, highlight_code_line. split.
  - intros H. apply find_None in H. rewrite H.
    destruct (Re.matches preprocessor_pattern line); [reflexivity|].
    destruct (Py.find (py "//") line); reflexivity.
  - destruct (Py.find (py "/*") line) as [start|] eqn:E.
    + destruct (Py.find_from (py "*/") line (start + 2)) eqn:E2; cbn [snd].
      * split; [discriminate|]. intros [s' [[= <-] H]]. congruence.
      * split; [|reflexivity]. intros _. exists start. auto.
    + split.
      * destruct (Re.matches preprocessor_pattern line); [discriminate|].
        destruct (Py.find (py "//") line); discriminate.
      * intros [s' [H _]]. discriminate.
Qed.

Lemma normal_exit_states_witness :
  ~ occurs (py "/*") (py "int x = a / b; // half")
  /\ snd (draw_highlighted_line (py "int x = a / b; // half") false) = false.
Proof.
  assert (H : ~ occurs (py "/*") (py "int x = a / b; // half"))
    by (apply find_None; reflexivity).
  split; [exact H | exact (proj1 (normal_exit_states _) H)].
Defined.

(** C7. The line [std::string s = "http://x.com";] in state [Normal]: the
    text from the [//] inside the string literal to the end of the line is
    one [LineComment] span, the opening quote before it matches no token
    and is not drawn, and the closing quote is part of the comment.  In
    general a line without [/*] that is no directive is cut at its first
    [//], wherever that stands. *)
Theorem line_comment_inside_string :
  draw_highlighted_line url_line false
  = ([ mkSpan (py "std") Identifier; mkSpan (py "::") PointerOrRef;
       mkSpan (py "string") TypeName; mkSpan (py " ") Whitespace;
       mkSpan (py "s") Identifier; mkSpan (py " ") Whitespace;
       mkSpan (py "=") Operator; mkSpan (py " ") Whitespace;
       mkSpan (py "http") Identifier; mkSpan (py ":") Identifier;
       mkSpan (py "//x.com" ++ dquote :: py ";") LineComment ],
     false)
  /\ forall line,
       ~ occurs (py "/*") line ->
       Re.matches preprocessor_pattern line = false ->
       occurs (py "//") line ->
       exists before rest,
         line = before ++ py "//" ++ rest
         /\ Py.find (py "//") line = Some (length before)
         /\ draw_highlighted_line line false
            = (if_nonempty before draw_code_tokens
               ++ [mkSpan (py "//" ++ rest) LineComment], false).
Proof.
  split; [vm_compute; reflexivity|].
  intros line Hblock Hpre Hline.
  apply find_None in Hblock. apply find_Some in Hline as [i Hi].
  destruct (find_split _ _ _ Hi) as [before [rest [E [-> [Hb Hr]]]]].
  exists before, rest. repeat split; [exact E | exact Hi |].
  unfold draw_highlighted_line, highlight_code_line.
  rewrite Hblock, Hpre, Hi, Hb, Hr. reflexivity.
Qed.

Lemma line_comment_inside_string_witness :
  ~ occurs (py "/*") url_line
  /\ Re.matches preprocessor_pattern url_line = false
  /\ occurs (py "//") url_line
  /\ exists before rest,
       url_line = before ++ py "//" ++ rest
       /\ Py.find (py "//") url_line = Some (length before)
       /\ draw_highlighted_line url_line false
          = (if_nonempty before draw_code_tokens
             ++ [mkSpan (py "//" ++ rest) LineComment], false).
Proof.
  assert (H1 : ~ occurs (py "/*") url_line)
    by (apply find_None; reflexivity).
  assert (H2 : Re.matches preprocessor_pattern url_line = false)
    by reflexivity.
  assert (H3 : occurs (py "//") url_line)
    by (apply (find_Some_occurs _ _ 22); reflexivity).
  repeat split; try assumption.
  exact (proj2 line_comment_inside_string url_line H1 H2 H3).
Defined.

(** C3. What follows a block comment that opens and closes on a line read
    in state [Normal] goes to the token loop, not back to the line rules: a
    second comment region and a [//] after the first region are drawn as
    operator tokens, and a comment opened again after the first region
    leaves the returned state [False]. *)
Theorem tail_after_block_comment_is_tokenized :
  draw_highlighted_line (py "/* a */ /* b */ // c") false
  = ([ mkSpan (py "/* a */") BlockComment; mkSpan (py " ") Whitespace;
       mkSpan (py "/") Operator; mkSpan (py "*") PointerOrRef;
       mkSpan (py " ") Whitespace; mkSpan (py "b") Identifier;
       mkSpan (py " ") Whitespace; mkSpan (py "*") PointerOrRef;
       mkSpan (py "/") Operator; mkSpan (py " ") Whitespace;
       mkSpan (py "/") Operator; mkSpan (py "/") Operator;
       mkSpan (py " ") Whitespace; mkSpan (py "c") Identifier ],
     false)
  /\ draw_highlighted_line (py "/* a */ x /* b") false
     = ([ mkSpan (py "/* a */") BlockComment; mkSpan (py " ") Whitespace;
          mkSpan (py "x") Identifier; mkSpan (py " ") Whitespace;
          mkSpan (py "/") Operator; mkSpan (py "*") PointerOrRef;
          mkSpan (py " ") Whitespace; mkSpan (py "b") Identifier ],
        false)
  /\ forall line, Forall (fun sp => code_category (category sp))
                    (draw_code_tokens line).
Proof.
  split; [vm_compute; reflexivity|].
  split; [vm_compute; reflexivity|].
  apply draw_code_tokens_code.
Qed.

(** ** Themes *)

Lemma themes_inv name theme :
  THEMES !! name = Some theme ->
  theme = catppuccin_mocha \/ theme = catppuccin_latte
  \/ theme = kanagawa_wave \/ theme = kanagawa_dragon
  \/ theme = kanagawa_lotus.
Proof.
  unfold THEMES. intros H. apply elem_of_list_to_map_2 in H.
  repeat (apply elem_of_cons in H as [H | H]; [inversion H; tauto|]).
  apply elem_of_nil in H. contradiction.
Qed.

Lemma size_themes : size THEMES = 5.
Proof. vm_compute. reflexivity. Qed.

(** C9. Palette completeness: there are five built-in palettes; each has
    exactly the keys of [palette_keys]; in each, the colour of every
    category that is drawn is found (white space, the one category that is
    not drawn, reads no colour), and so are the keys of the block frame, the
    page and the headers. *)
Theorem palette_completeness :
  5 <= size THEMES
  /\ forall name theme,
       THEMES !! name = Some theme ->
       dom theme = list_to_set palette_keys
       /\ (forall c, match color_of theme c with
                     | Some (Some _) => True
                     | Some None => False
                     | None => c = Whitespace
                     end)
       /\ Forall (fun k => is_Some (theme !! k)) frame_keys.
Proof.
  split; [rewrite size_themes; lia|].
  intros name theme H. apply themes_inv in H.
  destruct H as [-> | [-> | [-> | [-> | ->]]]];
    (split;
     [ unfold catppuccin_mocha, catppuccin_latte, kanagawa_wave,
         kanagawa_dragon, kanagawa_lotus, palette;
       rewrite dom_list_to_map_L; reflexivity |]);
    (split; [intros c; destruct c; vm_compute; auto|]);
    repeat constructor; vm_compute; eauto.
Qed.

Lemma palette_completeness_witness :
  THEMES !! SELECTED_THEME = Some kanagawa_wave
  /\ dom kanagawa_wave = list_to_set palette_keys
  /\ (forall c, match color_of kanagawa_wave c with
                | Some (Some _) => True
                | Some None => False
                | None => c = Whitespace
                end)
  /\ Forall (fun k => is_Some (kanagawa_wave !! k)) frame_keys.
Proof.
  assert (H : THEMES !! SELECTED_THEME = Some kanagawa_wave)
    by (vm_compute; reflexivity).
  split; [exact H|].
  exact (proj2 palette_completeness SELECTED_THEME kanagawa_wave H).
Defined.

(** ** Lines of a file *)

Lemma split_nl_cons s : exists l ls, Py.split_nl s = l :: ls.
Proof.
  induction s as [|c s [l [ls IH]]]; simpl; eauto.
  rewrite IH. destruct (Py.chr_eqb c Py.newline); eauto.
Qed.

Lemma split_nl_one_line s : Forall one_line (Py.split_nl s).
Proof.
  induction s as [|c s IH]; simpl.
  - repeat constructor. intros [].
  - destruct (Py.chr_eqb c Py.newline) eqn:E.
    + constructor; [intros [] | exact IH].
    + destruct (Py.split_nl s) as [|l ls].
      * repeat constructor. intros [-> | []].
        rewrite (proj2 (chr_eqb_eq _ _) eq_refl) in E. discriminate.
      * inversion IH as [|? ? Hl Hls]; subst. constructor; [|exact Hls].
        intros [-> | H]; [|exact (Hl H)].
        rewrite (proj2 (chr_eqb_eq _ _) eq_refl) in E. discriminate.
Qed.

Lemma split_nl_app l rest :
  one_line l ->
  Py.split_nl (l ++ Py.newline :: rest) = l :: Py.split_nl rest.
Proof.
  induction l as [|c l IH]; intros H; simpl.
  - reflexivity.
  - destruct (Py.chr_eqb c Py.newline) eqn:E.
    + apply chr_eqb_eq in E. exfalso. apply H. left. exact E.
    + rewrite IH; [reflexivity|]. intros H'. apply H. right. exact H'.
Qed.

Lemma split_nl_plain l : one_line l -> Py.split_nl l = [l].
Proof.
  induction l as [|c l IH]; intros H; simpl; [reflexivity|].
  destruct (Py.chr_eqb c Py.newline) eqn:E.
  - apply chr_eqb_eq in E. exfalso. apply H. left. exact E.
  - rewrite IH; [reflexivity|]. intros H'. apply H. right. exact H'.
Qed.

(** What [join] glues, [split] takes apart again. *)
Lemma split_join ls :
  ls <> [] -> Forall one_line ls -> Py.split_nl (Py.join_nl ls) = ls.
Proof.
  induction ls as [|l ls IH]; intros Hne H; [congruence|].
  inversion H as [|? ? Hl Hls]; subst.
  destruct ls as [|l2 ls].
  - simpl. apply split_nl_plain, Hl.
  - change (Py.join_nl (l :: l2 :: ls))
      with (l ++ Py.newline :: Py.join_nl (l2 :: ls)).
    rewrite split_nl_app by exact Hl. f_equal. apply IH; [discriminate|].
    exact Hls.
Qed.

Lemma join_split s : Py.join_nl (Py.split_nl s) = s.
Proof.
  induction s as [|c s IH]; simpl; [reflexivity|].
  destruct (split_nl_cons s) as [l [ls E]]. rewrite E in IH |- *.
  destruct (Py.chr_eqb c Py.newline) eqn:Ec.
  - apply chr_eqb_eq in Ec. subst c. simpl. simpl in IH.
    rewrite IH. reflexivity.
  - destruct ls as [|l2 ls]; simpl in IH |- *; rewrite <- IH; reflexivity.
Qed.

Lemma slice_one_line a b (ls : list (list ascii)) :
  Forall one_line ls -> Forall one_line (Py.slice a b ls).
Proof.
  intros H. unfold Py.slice. apply Forall_take, Forall_drop, H.
Qed.

Lemma slice_length {A} a b (ls : list A) :
  b <= length ls -> length (Py.slice a b ls) = b - a.
Proof.
  intros H. unfold Py.slice. rewrite length_take, length_drop. lia.
Qed.

(** The lines of a chunk are the lines it was cut from. *)
Lemma chunk_lines a b (s : list ascii) :
  a < b <= length (Py.split_nl s) ->
  Py.split_nl (Py.join_nl (Py.slice a b (Py.split_nl s)))
  = Py.slice a b (Py.split_nl s).
Proof.
  intros H. apply split_join.
  - intros E. apply (f_equal (@length _)) in E.
    rewrite slice_length in E by lia. simpl in E. lia.
  - apply slice_one_line, split_nl_one_line.
Qed.

(** ** The chunker *)

(** C8. A file of exactly 110 lines is cut into two blocks: the first starts
    at line 1 and is the first but not the last, the second starts at line 56
    and is the last but not the first; each holds 55 lines, at most the
    chunk size, and together they hold the lines of the file in order. *)
Theorem chunks_of_110_lines (code_content : list ascii) :
  length (Py.split_nl code_content) = 110 ->
  exists c1 c2,
    chunks code_content = [c1; c2]
    /\ start_line c1 = 1
    /\ is_first_chunk c1 = true /\ is_last_chunk c1 = false
    /\ start_line c2 = 56
    /\ is_first_chunk c2 = false /\ is_last_chunk c2 = true
    /\ length (lines c1) = 55 /\ length (lines c2) = 55
    /\ length (lines c1) <= max_lines_per_chunk
    /\ length (lines c2) <= max_lines_per_chunk
    /\ lines c1 ++ lines c2 = Py.split_nl code_content.
Proof.
  intros H. unfold chunks. rewrite H.
  change (max_lines_per_chunk <? 110) with true.
  change ((110 + max_lines_per_chunk - 1) / max_lines_per_chunk) with 2.
  cbn [seq chunk_loop]. rewrite H.
  change (0 * max_lines_per_chunk) with 0.
  change (1 * max_lines_per_chunk) with 55.
  change (Nat.min (0 + max_lines_per_chunk) 110) with 55.
  change (Nat.min (55 + max_lines_per_chunk) 110) with 110.
  eexists _, _. split; [reflexivity|].
  unfold lines. cbn [code start_line is_first_chunk is_last_chunk].
  rewrite !chunk_lines by (rewrite H; lia).
  rewrite !slice_length by (rewrite H; lia).
  repeat split; try reflexivity; try (unfold max_lines_per_chunk; lia).
  unfold Py.slice. rewrite drop_0.
  change (55 - 0) with 55. change (110 - 55) with 55.
  rewrite <- (take_drop 55 (Py.split_nl code_content)) at 3.
  f_equal. apply take_ge. rewrite length_drop. lia.
Qed.

Lemma chunks_of_110_lines_witness :
  length (Py.split_nl (repeat Py.newline 109)) = 110
  /\ exists c1 c2,
       chunks (repeat Py.newline 109) = [c1; c2]
       /\ start_line c1 = 1
       /\ is_first_chunk c1 = true /\ is_last_chunk c1 = false
       /\ start_line c2 = 56
       /\ is_first_chunk c2 = false /\ is_last_chunk c2 = true
       /\ length (lines c1) = 55 /\ length (lines c2) = 55
       /\ length (lines c1) <= max_lines_per_chunk
       /\ length (lines c2) <= max_lines_per_chunk
       /\ lines c1 ++ lines c2 = Py.split_nl (repeat Py.newline 109).
Proof.
  assert (H : length (Py.split_nl (repeat Py.newline 109)) = 110)
    by reflexivity.
  split; [exact H | exact (chunks_of_110_lines _ H)].
Defined.

(** *** The forward scan *)

Lemma occurs_app_r sub pre s : occurs sub s -> occurs sub (pre ++ s).
Proof.
  intros [p [q ->]]. exists (pre ++ p), q. rewrite app_assoc. reflexivity.
Qed.

Lemma open_without_later_close_iff line :
  open_without_later_close line = true <->
  exists pre post, line = pre ++ py "/*" ++ post /\ ~ occurs (py "*/") post.
Proof.
  induction line as [|c rest IH].
  - simpl. split; [discriminate|]. intros [[|? ?] [post [E _]]]; discriminate.
  - cbn [open_without_later_close].
    rewrite orb_true_iff, andb_true_iff, negb_true_iff, IH. split.
    + intros [[H1 H2] | [pre [post [-> H]]]].
      * apply startswith_iff in H1 as [post E]. rewrite E in H2 |- *.
        exists [], post. split; [reflexivity|].
        apply contains_false in H2. exact H2.
      * exists (c :: pre), post. split; [reflexivity | exact H].
    + intros [[|d pre] [post [E H]]].
      * left. rewrite E. split.
        -- apply startswith_iff. exists post. reflexivity.
        -- apply contains_false. exact H.
      * right. inversion E. exists pre, post. split; [reflexivity | exact H].
Qed.

Lemma open_without_later_close_open line :
  open_without_later_close line = true -> Py.contains (py "/*") line = true.
Proof.
  intros H. apply open_without_later_close_iff in H as [pre [post [-> _]]].
  apply contains_true. exists pre, post. reflexivity.
Qed.

Lemma open_no_close line :
  Py.contains (py "/*") line = true ->
  Py.contains (py "*/") line = false ->
  open_without_later_close line = true.
Proof.
  intros Ho Hc. apply contains_true in Ho as [pre [post ->]].
  apply contains_false in Hc. apply open_without_later_close_iff.
  exists pre, post. split; [reflexivity|].
  intros H. apply Hc. apply occurs_app_r. apply (occurs_app_r _ (py "/*")).
  exact H.
Qed.

Lemma scan_line_spec flag line :
  close_not_before_open line ->
  scan_line flag line = spec_scan_line flag line.
Proof.
  unfold close_not_before_open, scan_line, spec_scan_line. intros H.
  destruct (Py.contains (py "/*") line) eqn:Ho;
    destruct (Py.contains (py "*/") line) eqn:Hc; cbn [andb negb].
  - destruct (open_without_later_close line); [|reflexivity].
    apply contains_true in Hc. exfalso. exact (H eq_refl Hc).
  - rewrite open_no_close; auto.
  - destruct (open_without_later_close line) eqn:E; [|reflexivity].
    apply open_without_later_close_open in E. congruence.
  - destruct (open_without_later_close line) eqn:E; [|reflexivity].
    apply open_without_later_close_open in E. congruence.
Qed.

Lemma fold_scan_line_spec ls :
  Forall close_not_before_open ls ->
  forall flag, fold_left scan_line ls flag = fold_left spec_scan_line ls flag.
Proof.
  induction 1 as [|l ls Hl Hls IH]; intros flag; simpl; [reflexivity|].
  rewrite scan_line_spec by exact Hl. apply IH.
Qed.

Lemma upto_next_chunk {A} (a : nat) (ls : list A) :
  Py.upto a ls
  ++ Py.slice a (Nat.min (a + max_lines_per_chunk) (length ls)) ls
  = Py.upto (a + max_lines_per_chunk) ls.
Proof.
  unfold Py.upto, Py.slice.
  destruct (Nat.le_gt_cases (a + max_lines_per_chunk) (length ls)) as [H | H].
  - rewrite Nat.min_l by exact H.
    replace (a + max_lines_per_chunk - a) with max_lines_per_chunk by lia.
    apply take_take_drop.
  - rewrite Nat.min_r by lia.
    rewrite (take_ge (drop a ls)) by (rewrite length_drop; lia).
    rewrite take_drop. symmetry. apply take_ge. lia.
Qed.

(** Every block starts in the state the scan has reached on the lines
    before it. *)
Lemma chunk_loop_entry_state all_lines num_chunks k :
  forall a flag f,
    flag = fold_left scan_line
             (Py.upto (a * max_lines_per_chunk) all_lines) false ->
    In f (chunk_loop all_lines num_chunks (seq a k) flag) ->
    in_block_comment f
    = fold_left scan_line (Py.upto (start_line f - 1) all_lines) false.
Proof.
  induction k as [|k IH]; intros a flag f Hflag Hin; [destruct Hin|].
  cbn [seq chunk_loop] in Hin. destruct Hin as [<- | Hin].
  - cbn [in_block_comment start_line].
    replace (a * max_lines_per_chunk + 1 - 1) with (a * max_lines_per_chunk)
      by lia.
    exact Hflag.
  - eapply IH; [|exact Hin].
    rewrite Hflag, <- fold_left_app, upto_next_chunk.
    do 2 f_equal. unfold max_lines_per_chunk. lia.
Qed.

Lemma chunks_entry_state code_content f :
  In f (chunks code_content) ->
  in_block_comment f
  = fold_left scan_line (preceding_lines code_content f) false.
Proof.
  unfold chunks, preceding_lines.
  destruct (max_lines_per_chunk <? length (Py.split_nl code_content)).
  - apply chunk_loop_entry_state. reflexivity.
  - intros [<- | []]. reflexivity.
Qed.

Lemma close_not_before_open_check ls :
  forallb (fun l => negb (open_without_later_close l)
                    || negb (Py.contains (py "*/") l)) ls = true ->
  Forall close_not_before_open ls.
Proof.
  induction ls as [|l ls IH]; simpl; [constructor|].
  rewrite andb_true_iff. intros [Hl Hls]. constructor; [|apply IH, Hls].
  intros Ho. rewrite Ho in Hl. simpl in Hl.
  apply negb_true_iff, contains_false in Hl. exact Hl.
Qed.

(** The claim C4 as it is stated fails on a file whose first line is
    [*/ x /*]: its second block starts with the flag [False], the heuristic
    of the specification gives [True]. *)
Lemma entry_state_is_not_the_spec_heuristic :
  ~ (forall code_content f,
       In f (chunks code_content) ->
       in_block_comment f
       = spec_entry_state (preceding_lines code_content f)).
Proof.
  intros H.
  specialize (H reopening_file (mkFlowable [] 56 false true false)).
  assert (Hin : In (mkFlowable [] 56 false true false)
                  (chunks reopening_file))
    by (vm_compute; right; left; reflexivity).
  specialize (H Hin). vm_compute in H. discriminate.
Qed.

(** C4, amended.  Every block starts with the flag that the scan of the
    source, [scan_line], has reached over all lines before the block: a line
    with [/*] and no [*/] anywhere sets it, any other line with [*/] clears
    it.  That is the heuristic of the specification whenever no line before
    the block has a [*/] only before a [/*] that stays open. *)
Theorem entry_state_forward_scan (code_content : list ascii)
    (f : SyntaxHighlightedCode) :
  In f (chunks code_content) ->
  in_block_comment f
  = fold_left scan_line (preceding_lines code_content f) false
  /\ (Forall close_not_before_open (preceding_lines code_content f) ->
      in_block_comment f
      = spec_entry_state (preceding_lines code_content f)).
Proof.
  intros Hin. pose proof (chunks_entry_state _ _ Hin) as E.
  split; [exact E|]. intros Hclean. rewrite E.
  unfold spec_entry_state. apply fold_scan_line_spec, Hclean.
Qed.

Lemma entry_state_forward_scan_witness :
  In (mkFlowable [] 56 false true true) (chunks open_comment_file)
  /\ Forall close_not_before_open
       (preceding_lines open_comment_file
          (mkFlowable [] 56 false true true))
  /\ true = spec_entry_state
              (preceding_lines open_comment_file
                 (mkFlowable [] 56 false true true)).
Proof.
  assert (Hin : In (mkFlowable [] 56 false true true)
                  (chunks open_comment_file))
    by (vm_compute; right; left; reflexivity).
  assert (Hclean : Forall close_not_before_open
                     (preceding_lines open_comment_file
                        (mkFlowable [] 56 false true true)))
    by (apply close_not_before_open_check; vm_compute; reflexivity).
  split; [exact Hin|]. split; [exact Hclean|].
  exact (proj2 (entry_state_forward_scan _ _ Hin) Hclean).
Defined.

(** ** The matcher *)

Section RegexFacts.
Import Re.

Lemma in_all_chars c : In c all_chars.
Proof.
  unfold all_chars. rewrite <- (ascii_nat_embedding c).
  apply in_map, in_seq. pose proof (nat_ascii_bounded c). lia.
Qed.

Lemma subclass_sound p q c :
  subclass p q = true -> p c = true -> q c = true.
Proof.
  unfold subclass. rewrite forallb_forall. intros H Hp.
  specialize (H c (in_all_chars c)). rewrite Hp in H. exact H.
Qed.

(** The matcher is sound: what it consumes is a text of the language. *)
Lemma star_loop_sound (L : list ascii -> Prop) body :
  (forall s k out, body s k = Some out ->
     exists pre rest, s = pre ++ rest /\ L pre /\ k rest = Some out) ->
  forall n s k out, star_loop body k n s = Some out ->
    exists pre rest,
      s = pre ++ rest /\ star_lang L pre /\ k rest = Some out.
Proof.
  intros Hbody. induction n as [|n IH]; intros s k out H; simpl in H.
  - exists [], s. repeat split; [constructor | exact H].
  - match type of H with
    | match ?b with _ => _ end = _ => destruct b as [o|] eqn:E
    end.
    + injection H as ->.
      apply Hbody in E as [pre1 [r1 [-> [L1 Hk]]]].
      destruct (length r1 <? length (pre1 ++ r1)); [|discriminate].
      apply IH in Hk as [pre2 [r2 [-> [S2 Hk2]]]].
      exists (pre1 ++ pre2), r2. rewrite app_assoc.
      repeat split; [constructor; assumption | exact Hk2].
    + exists [], s. repeat split; [constructor | exact H].
Qed.

Lemma run_sound r :
  forall s k out, run r s k = Some out ->
    exists pre rest, s = pre ++ rest /\ lang r pre /\ k rest = Some out.
Proof.
  induction r as [|p|r1 IH1 r2 IH2|r1 IH1 r2 IH2|r1 IH1|];
    intros s k out H; simpl in H.
  - exists [], s. repeat split. exact H.
  - destruct s as [|c s]; [discriminate|].
    destruct (p c) eqn:E; [|discriminate].
    exists [c], s. repeat split; [|exact H].
    exists c. split; [reflexivity | exact E].
  - apply IH1 in H as [pre1 [rest1 [-> [L1 H]]]].
    apply IH2 in H as [pre2 [rest2 [-> [L2 H]]]].
    exists (pre1 ++ pre2), rest2. rewrite app_assoc.
    repeat split; [|exact H]. exists pre1, pre2.
    repeat split; assumption.
  - destruct (run r1 s k) as [o|] eqn:E.
    + injection H as ->.
      apply IH1 in E as [pre [rest [-> [L1 H]]]].
      exists pre, rest. repeat split; [left; exact L1 | exact H].
    + apply IH2 in H as [pre [rest [-> [L2 H]]]].
      exists pre, rest. repeat split; [right; exact L2 | exact H].
  - eapply star_loop_sound in H; [exact H | exact IH1].
  - exists [], s. repeat split.
    destruct s as [|c [|d s]]; [exact H | | discriminate].
    destruct (Py.chr_eqb c Py.newline); [exact H | discriminate].
Qed.

Lemma lang_nonempty r :
  forall w, consumes r = true -> lang r w -> w <> [].
Proof.
  induction r as [|p|r1 IH1 r2 IH2|r1 IH1 r2 IH2|r1 IH1|];
    intros w Hc Hl; simpl in *; try discriminate.
  - destruct Hl as [c [-> _]]. discriminate.
  - destruct Hl as [u [v [-> [Lu Lv]]]].
    apply orb_true_iff in Hc as [Hc | Hc]; intros E;
      apply app_eq_nil in E as [Eu Ev].
    + exact (IH1 _ Hc Lu Eu).
    + exact (IH2 _ Hc Lv Ev).
  - apply andb_true_iff in Hc as [Hc1 Hc2].
    destruct Hl as [Hl | Hl]; [exact (IH1 _ Hc1 Hl) | exact (IH2 _ Hc2 Hl)].
Qed.

Lemma lang_within q r :
  forall w, within q r = true -> lang r w -> forallb q w = true.
Proof.
  induction r as [|p|r1 IH1 r2 IH2|r1 IH1 r2 IH2|r1 IH1|];
    intros w Hc Hl; simpl in *; subst; try reflexivity.
  - destruct Hl as [c [-> Hp]]. simpl.
    rewrite (subclass_sound _ _ _ Hc Hp). reflexivity.
  - apply andb_true_iff in Hc as [Hc1 Hc2].
    destruct Hl as [u [v [-> [Lu Lv]]]].
    rewrite forallb_app, (IH1 _ Hc1 Lu), (IH2 _ Hc2 Lv). reflexivity.
  - apply andb_true_iff in Hc as [Hc1 Hc2].
    destruct Hl as [Hl | Hl]; auto.
  - induction Hl as [|u v Lu Lv IHv]; [reflexivity|].
    rewrite forallb_app, (IH1 _ Hc Lu), IHv. reflexivity.
Qed.

Lemma head_in_app q u v :
  head_in q u -> (u = [] -> head_in q v) -> head_in q (u ++ v).
Proof. destruct u; simpl; auto. Qed.

Lemma lang_starts q r :
  forall w, starts_in q r = true -> lang r w -> head_in q w.
Proof.
  induction r as [|p|r1 IH1 r2 IH2|r1 IH1 r2 IH2|r1 IH1|];
    intros w Hc Hl; simpl in *; subst; try exact I.
  - destruct Hl as [c [-> Hp]]. exact (subclass_sound _ _ _ Hc Hp).
  - apply andb_true_iff in Hc as [Hc1 Hc2].
    destruct Hl as [u [v [-> [Lu Lv]]]].
    apply head_in_app; [exact (IH1 _ Hc1 Lu)|].
    intros ->. apply orb_true_iff in Hc2 as [Hc2 | Hc2].
    + exfalso. exact (lang_nonempty _ _ Hc2 Lu eq_refl).
    + exact (IH2 _ Hc2 Lv).
  - apply andb_true_iff in Hc as [Hc1 Hc2].
    destruct Hl as [Hl | Hl]; auto.
  - induction Hl as [|u v Lu Lv IHv]; [exact I|].
    apply head_in_app; [exact (IH1 _ Hc Lu) | intros _; exact IHv].
Qed.

Lemma lang_ends q r :
  forall w, ends_in q r = true -> lang r w -> head_in q (rev w).
Proof.
  induction r as [|p|r1 IH1 r2 IH2|r1 IH1 r2 IH2|r1 IH1|];
    intros w Hc Hl; simpl in *; subst; try exact I.
  - destruct Hl as [c [-> Hp]]. exact (subclass_sound _ _ _ Hc Hp).
  - apply andb_true_iff in Hc as [Hc2 Hc1].
    destruct Hl as [u [v [-> [Lu Lv]]]]. rewrite rev_app_distr.
    apply head_in_app; [exact (IH2 _ Hc2 Lv)|].
    intros E. apply (f_equal (@rev _)) in E. rewrite rev_involutive in E.
    simpl in E. subst v. apply orb_true_iff in Hc1 as [Hc1 | Hc1].
    + exfalso. exact (lang_nonempty _ _ Hc1 Lv eq_refl).
    + exact (IH1 _ Hc1 Lu).
  - apply andb_true_iff in Hc as [Hc1 Hc2].
    destruct Hl as [Hl | Hl]; auto.
  - induction Hl as [|u v Lu Lv IHv]; [exact I|].
    rewrite rev_app_distr.
    apply head_in_app; [exact IHv | intros _; exact (IH1 _ Hc Lu)].
Qed.

Lemma run_never_fails r :
  never_fails r = true ->
  forall s k, (forall u, k u <> None) -> run r s k <> None.
Proof.
  induction r as [|p|r1 IH1 r2 IH2|r1 IH1 r2 IH2|r1 IH1|];
    intros Hc s k Hk; simpl in *; try discriminate.
  - apply Hk.
  - apply andb_true_iff in Hc as [Hc1 Hc2].
    apply IH1; [exact Hc1|]. intros u. apply IH2; assumption.
  - destruct (run r1 s k) eqn:E; [discriminate|].
    apply orb_true_iff in Hc as [Hc | Hc].
    + exfalso. exact (IH1 Hc s k Hk E).
    + apply IH2; assumption.
  - destruct (length s) as [|n]; simpl; [apply Hk|].
    match goal with
    | |- match ?b with _ => _ end <> _ => destruct b
    end; [discriminate | apply Hk].
Qed.

Lemma run_Alts_In rs r s k :
  In r rs -> run r s k <> None -> run (Alts rs) s k <> None.
Proof.
  induction rs as [|r1 rs IH]; intros Hin Hr; [destruct Hin|].
  destruct rs as [|r2 rs].
  - destruct Hin as [-> | []]. exact Hr.
  - change (Alts (r1 :: r2 :: rs)) with (Alt r1 (Alts (r2 :: rs))).
    simpl run. destruct (run r1 s k) eqn:E; [discriminate|].
    apply IH; [|exact Hr]. destruct Hin as [-> | Hin]; [|exact Hin].
    contradiction.
Qed.

Lemma lang_Alts rs w : lang (Alts rs) w -> exists r, In r rs /\ lang r w.
Proof.
  induction rs as [|r1 rs IH]; intros H.
  - destruct H as [c [_ H]]. discriminate.
  - destruct rs as [|r2 rs].
    + exists r1. split; [left; reflexivity | exact H].
    + change (Alts (r1 :: r2 :: rs)) with (Alt r1 (Alts (r2 :: rs))) in H.
      destruct H as [H | H].
      * exists r1. split; [left; reflexivity | exact H].
      * apply IH in H as [r [Hin H]]. exists r.
        split; [right; exact Hin | exact H].
Qed.

(** [re.match] returns a text of the language that starts the subject. *)
Lemma match_prefix_lang r s tok :
  match_prefix r s = Some tok ->
  lang r tok /\ exists rest, s = tok ++ rest /\ run r s Some = Some rest.
Proof.
  unfold match_prefix. destruct (run r s Some) as [rest|] eqn:E;
    [|discriminate].
  intros [= <-].
  destruct (run_sound _ _ _ _ E) as [pre [rest' [-> [L [= ->]]]]].
  rewrite length_app, Nat.add_sub, take_app_length.
  split; [exact L|]. exists rest. auto.
Qed.

Lemma match_prefix_run r s tok rest :
  run r s Some = Some rest -> s = tok ++ rest ->
  match_prefix r s = Some tok.
Proof.
  intros E ->. unfold match_prefix. rewrite E.
  rewrite length_app, Nat.add_sub, take_app_length. reflexivity.
Qed.

(** *** The scan of [findall] *)

Lemma scan_skip r n :
  forall s, n <= length s -> scan r s n = scan r (skipn n s) 0.
Proof.
  induction n as [|n IH]; intros s H; [reflexivity|].
  destruct s as [|c s]; simpl in H; [lia|].
  simpl scan. rewrite IH by lia. reflexivity.
Qed.

Lemma scan_step r s tok rest :
  run r s Some = Some rest -> s = tok ++ rest -> tok <> [] ->
  scan r s 0 = tok :: scan r rest 0.
Proof.
  intros E -> Hne. destruct tok as [|c tok]; [congruence|].
  cbn [scan app].
  rewrite (match_prefix_run r (c :: tok ++ rest) (c :: tok) rest E eq_refl).
  f_equal. replace (length (c :: tok) - 1) with (length tok)
    by (simpl; lia).
  rewrite scan_skip by (rewrite length_app; lia).
  rewrite drop_app_length. reflexivity.
Qed.

Lemma scan_pass r c s :
  run r (c :: s) Some = None -> scan r (c :: s) 0 = scan r s 0.
Proof.
  intros E. cbn [scan]. unfold match_prefix. rewrite E. reflexivity.
Qed.

Lemma scan_tokens (P : list ascii -> Prop) r :
  (forall s tok, match_prefix r s = Some tok -> P tok) ->
  forall s n, Forall P (scan r s n).
Proof.
  intros H. induction s as [|c s IH]; intros n.
  - destruct n; simpl; [|constructor].
    destruct (match_prefix r []) eqn:E; repeat constructor.
    exact (H _ _ E).
  - destruct n; simpl; [|apply IH].
    destruct (match_prefix r (c :: s)) eqn:E; [|apply IH].
    constructor; [exact (H _ _ E) | apply IH].
Qed.

End RegexFacts.

(** ** Tokens *)

Lemma lstrip_head c s :
  not_space c = true -> Py.lstrip (c :: s) = c :: s.
Proof.
  unfold not_space. intros H. apply negb_true_iff in H.
  simpl. rewrite H. reflexivity.
Qed.

Lemma strip_trimmed tok :
  tok <> [] -> head_in not_space tok -> head_in not_space (rev tok) ->
  Py.strip tok = tok.
Proof.
  intros Hne Hh Hl. destruct tok as [|c t]; [congruence|].
  unfold Py.strip. rewrite lstrip_head by exact Hh.
  destruct (rev (c :: t)) as [|d u] eqn:E.
  - apply (f_equal (@rev _)) in E. rewrite rev_involutive in E.
    discriminate.
  - rewrite lstrip_head by exact Hl. rewrite <- E. apply rev_involutive.
Qed.

Lemma lstrip_spaces s : forallb Py.isspace_chr s = true -> Py.lstrip s = [].
Proof.
  induction s as [|c s IH]; simpl; [reflexivity|].
  rewrite andb_true_iff. intros [-> H]. apply IH, H.
Qed.

Lemma strip_spaces s : Py.isspace s = true -> Py.strip s = [].
Proof.
  intros H. unfold Py.strip. rewrite (lstrip_spaces s); [reflexivity|].
  destruct s; [discriminate | exact H].
Qed.

Lemma isspace_spaces s :
  s <> [] -> forallb Py.isspace_chr s = true -> Py.isspace s = true.
Proof. destruct s; [congruence | auto]. Qed.

Lemma trimmed_alternative_sound r tok :
  trimmed_alternative r = true -> lang r tok -> trimmed tok.
Proof.
  unfold trimmed_alternative.
  rewrite andb_true_iff, orb_true_iff, andb_true_iff.
  intros [Hc [[Hs He] | Hw]] Hl;
    pose proof (lang_nonempty _ _ Hc Hl) as Hne.
  - right. apply strip_trimmed; [exact Hne | |].
    + exact (lang_starts _ _ _ Hs Hl).
    + exact (lang_ends _ _ _ He Hl).
  - left. apply isspace_spaces; [exact Hne|].
    exact (lang_within _ _ _ Hw Hl).
Qed.

Lemma token_alternatives_trimmed :
  forallb trimmed_alternative token_alternatives = true.
Proof. vm_compute. reflexivity. Qed.

Lemma token_trimmed tok : lang token_pattern tok -> trimmed tok.
Proof.
  intros H. apply lang_Alts in H as [r [Hin H]].
  pose proof token_alternatives_trimmed as Hall.
  rewrite forallb_forall in Hall.
  exact (trimmed_alternative_sound _ _ (Hall _ Hin) H).
Qed.

(** The pattern never matches the empty string. *)
Lemma token_pattern_consumes : consumes token_pattern = true.
Proof. vm_compute. reflexivity. Qed.

Lemma tokenize_trimmed line : Forall trimmed (tokenize line).
Proof.
  apply scan_tokens. intros s tok H.
  apply match_prefix_lang in H as [H _]. apply token_trimmed, H.
Qed.

Lemma tokenize_nonempty line : Forall (fun tok => tok <> []) (tokenize line).
Proof.
  apply scan_tokens. intros s tok H.
  apply match_prefix_lang in H as [H _].
  exact (lang_nonempty _ _ token_pattern_consumes H).
Qed.

(** A trimmed token that strips to a text that is not empty is that text. *)
Lemma trimmed_strip tok t :
  trimmed tok -> t <> [] -> Py.strip tok = t -> tok = t.
Proof.
  intros [H | H] Hne E.
  - rewrite strip_spaces in E by exact H. congruence.
  - congruence.
Qed.

(** ** The token loop *)

Ltac split_ifs :=
  repeat match goal with
         | |- context [if ?b then _ else _] => destruct b eqn:?
         end.

Lemma token_category_call prev token next :
  token_category prev token next = FunctionCall ->
  exists n, next = Some n /\ Py.strip n = py "(".
Proof.
  unfold token_category. cbv zeta.
  destruct (_ || _); [discriminate|].
  destruct (Py.mem token keywords); [discriminate|].
  destruct (Py.mem token types); [discriminate|].
  destruct (Re.matches identifier_shape token && _) eqn:E.
  - intros _. apply andb_true_iff in E as [_ E].
    destruct next as [n|]; [|discriminate].
    apply andb_true_iff in E as [_ E]. apply str_eqb_eq in E.
    exists n. auto.
  - split_ifs; discriminate.
Qed.

Lemma mem_member p :
  Py.mem p ["."; "->"]%string = true -> p = py "." \/ p = py "->".
Proof.
  unfold Py.mem. simpl. rewrite !orb_true_iff, !str_eqb_eq.
  intros [H | [H | H]]; [auto | auto | discriminate].
Qed.

Lemma token_category_member prev token next :
  token_category prev token next = MemberAccess ->
  prev = Some (py ".") \/ prev = Some (py "->").
Proof.
  unfold token_category. cbv zeta.
  destruct (_ || _); [discriminate|].
  destruct (Py.mem token keywords); [discriminate|].
  destruct (Py.mem token types); [discriminate|].
  destruct (Re.matches identifier_shape token && _); [discriminate|].
  destruct (_ && Re.matches identifier_shape token) eqn:E.
  - intros _. apply andb_true_iff in E as [E _].
    destruct prev as [p|]; [|discriminate].
    apply mem_member in E as [-> | ->]; auto.
  - split_ifs; discriminate.
Qed.

(** What [prev_token] is after the token [t], if it is ["."] or ["->"], is
    the token itself. *)
Lemma prev_token_member t p :
  trimmed t -> (p = py "." \/ p = py "->") ->
  (Some t = Some p \/ Some (Py.strip t) = Some p) -> t = p.
Proof.
  intros Ht Hp [[= E] | [= E]]; [exact E|].
  apply (trimmed_strip _ _ Ht); [|exact E].
  destruct Hp as [-> | ->]; discriminate.
Qed.

Lemma token_loop_cons prev t ts :
  exists prev',
    token_loop prev (t :: ts)
    = mkSpan t (token_category prev t (hd_error ts)) :: token_loop prev' ts
    /\ (prev' = Some t \/ prev' = Some (Py.strip t)).
Proof.
  cbn [token_loop].
  destruct (token_category prev t (hd_error ts));
    eexists; split; try reflexivity; auto.
Qed.

Lemma token_loop_adjacent tokens :
  Forall trimmed tokens ->
  forall prev i sp,
    nth_error (token_loop prev tokens) i = Some sp ->
    nth_error tokens i = Some (text sp)
    /\ (category sp = FunctionCall ->
        nth_error tokens (S i) = Some (py "("))
    /\ (category sp = MemberAccess ->
        match i with
        | O => prev = Some (py ".") \/ prev = Some (py "->")
        | S j => nth_error tokens j = Some (py ".")
                 \/ nth_error tokens j = Some (py "->")
        end).
Proof.
  induction 1 as [|t ts Ht Hts IH]; intros prev i sp Hsp.
  - destruct i; discriminate.
  - destruct (token_loop_cons prev t ts) as [prev' [E Hprev]].
    rewrite E in Hsp. destruct i as [|i]; simpl in Hsp.
    + injection Hsp as <-. cbn [text category]. repeat split.
      * intros Hc. apply token_category_call in Hc as [n [Hn Hs]].
        destruct ts as [|n' ts']; [discriminate|].
        injection Hn as ->. inversion Hts as [|? ? Hn' _]; subst.
        simpl. f_equal. apply (trimmed_strip _ _ Hn'); [discriminate|].
        exact Hs.
      * apply token_category_member.
    + destruct (IH prev' i sp Hsp) as [H1 [H2 H3]].
      repeat split; [exact H1 | exact H2 |].
      intros Hc. specialize (H3 Hc). destruct i as [|i]; [|exact H3].
      simpl. destruct H3 as [H3 | H3]; [left | right]; f_equal;
        apply (prev_token_member _ _ Ht); auto;
        destruct Hprev as [-> | ->]; auto.
Qed.

(** C6. Strict adjacency.  A span of the token loop carries the token at its
    place in the token stream; it is a [FunctionCall] only if the very next
    element of the stream is the token [(], and a [MemberAccess] only if the
    element just before it is the token [.] or [->].  A white space token in
    between is such an element, so [foo (] and [obj. member] leave [foo] and
    [member] plain identifiers, while [foo(] and [obj.member] do not. *)
Theorem strict_adjacency :
  (forall line i sp,
     nth_error (draw_code_tokens line) i = Some sp ->
     nth_error (tokenize line) i = Some (text sp)
     /\ (category sp = FunctionCall ->
         nth_error (tokenize line) (S i) = Some (py "("))
     /\ (category sp = MemberAccess ->
         exists j, i = S j
                   /\ (nth_error (tokenize line) j = Some (py ".")
                       \/ nth_error (tokenize line) j = Some (py "->"))))
  /\ draw_code_tokens (py "foo(")
     = [mkSpan (py "foo") FunctionCall; mkSpan (py "(") Punctuation]
  /\ draw_code_tokens (py "foo (")
     = [mkSpan (py "foo") Identifier; mkSpan (py " ") Whitespace;
        mkSpan (py "(") Punctuation]
  /\ draw_code_tokens (py "obj.member")
     = [mkSpan (py "obj") Identifier; mkSpan (py ".") Identifier;
        mkSpan (py "member") MemberAccess]
  /\ draw_code_tokens (py "obj. member")
     = [mkSpan (py "obj") Identifier; mkSpan (py ".") Identifier;
        mkSpan (py " ") Whitespace; mkSpan (py "member") Identifier].
Proof.
  split; [|repeat split; vm_compute; reflexivity].
  intros line i sp Hsp. unfold draw_code_tokens in Hsp.
  destruct (token_loop_adjacent _ (tokenize_trimmed line) None i sp Hsp)
    as [H1 [H2 H3]].
  repeat split; [exact H1 | exact H2 |].
  intros Hc. specialize (H3 Hc). destruct i as [|j].
  - destruct H3; discriminate.
  - exists j. auto.
Qed.

Lemma strict_adjacency_witness :
  nth_error (draw_code_tokens (py "f(a.b)")) 4
  = Some (mkSpan (py "b") MemberAccess)
  /\ nth_error (tokenize (py "f(a.b)")) 4 = Some (py "b")
  /\ (category (mkSpan (py "b") MemberAccess) = MemberAccess ->
      exists j, 4 = S j
                /\ (nth_error (tokenize (py "f(a.b)")) j = Some (py ".")
                    \/ nth_error (tokenize (py "f(a.b)")) j
                       = Some (py "->"))).
Proof.
  assert (H : nth_error (draw_code_tokens (py "f(a.b)")) 4
              = Some (mkSpan (py "b") MemberAccess))
    by (vm_compute; reflexivity).
  split; [exact H|].
  destruct (proj1 strict_adjacency (py "f(a.b)") 4 _ H) as [H1 [_ H3]].
  split; [exact H1 | exact H3].
Defined.

(** ** The tokenizer on lexable lines *)

Section Completeness.
Import Re.

Lemma chr_eqb_refl c : Py.chr_eqb c c = true.
Proof. apply chr_eqb_eq. reflexivity. Qed.

Lemma run_Cls_head p r c s k :
  p c = true -> run (Seq (Cls p) r) (c :: s) k = run r s k.
Proof. intros H. simpl. rewrite H. reflexivity. Qed.

Lemma run_Cls_fail p r c s k :
  p c = false -> run (Seq (Cls p) r) (c :: s) k = None.
Proof. intros H. simpl. rewrite H. reflexivity. Qed.

(** *** A character that always starts a token *)

Lemma lexical_not_quote c : lexical_chr c = true -> not_quote c = true.
Proof.
  apply subclass_sound. vm_compute. reflexivity.
Qed.

Lemma punct_alternative c :
  punct_chr c = true -> In (Chr c) plain_alternatives.
Proof.
  unfold punct_chr. simpl existsb.
  rewrite !orb_true_iff, !chr_eqb_eq.
  intros H. repeat destruct H as [H | H]; subst;
    try discriminate;
    unfold plain_alternatives;
    repeat (first [left; reflexivity | right]).
Qed.

Lemma lexical_starts_token c s :
  lexical_chr c = true -> run (Alts plain_alternatives) (c :: s) Some <> None.
Proof.
  unfold lexical_chr. rewrite !orb_true_iff.
  intros [[[[H | H] | H] | H] | H].
  - apply (run_Alts_In _ dec_number); [simpl; tauto|].
    change (run dec_number (c :: s) Some)
      with (run (Seq (Cls digit_chr)
                   (Seq (Star digit)
                      (Seq (Opt (Chr "."%char))
                         (Seq (Star digit) (Star suffix_letter)))))
              (c :: s) Some).
    rewrite run_Cls_head by exact H.
    apply run_never_fails; [reflexivity | discriminate].
  - apply (run_Alts_In _ identifier); [simpl; tauto|].
    unfold identifier, ident_start. rewrite run_Cls_head by exact H.
    apply run_never_fails; [reflexivity | discriminate].
  - apply (run_Alts_In _ (Cls op_chr)); [simpl; tauto|].
    simpl. rewrite H. discriminate.
  - apply (run_Alts_In _ (Chr c)); [apply punct_alternative, H|].
    simpl. rewrite chr_eqb_refl. discriminate.
  - apply (run_Alts_In _ (Plus space)); [simpl; tauto|].
    unfold Plus, space. rewrite run_Cls_head by exact H.
    apply run_never_fails; [reflexivity | discriminate].
Qed.

Lemma quoted_fail q c s k :
  Py.chr_eqb q c = false -> run (quoted q) (c :: s) k = None.
Proof. intros H. unfold quoted, Chr. apply run_Cls_fail, H. Qed.

Lemma token_pattern_unfold s k :
  run token_pattern s k
  = match run (quoted dquote) s k with
    | Some out => Some out
    | None => match run (quoted squote) s k with
              | Some out => Some out
              | None => run (Alts plain_alternatives) s k
              end
    end.
Proof. reflexivity. Qed.

Lemma not_quote_chr c :
  not_quote c = true ->
  Py.chr_eqb dquote c = false /\ Py.chr_eqb squote c = false.
Proof.
  unfold not_quote. rewrite negb_true_iff, orb_false_iff.
  intros [H1 H2]. split.
  - destruct (Py.chr_eqb dquote c) eqn:E; [|reflexivity].
    apply chr_eqb_eq in E. subst c. rewrite chr_eqb_refl in H1. discriminate.
  - destruct (Py.chr_eqb squote c) eqn:E; [|reflexivity].
    apply chr_eqb_eq in E. subst c. rewrite chr_eqb_refl in H2. discriminate.
Qed.

(** At a lexical character a token is found; it is made of characters
    that are no quotes. *)
Lemma lexical_token c s :
  lexical_chr c = true ->
  exists tok rest,
    run token_pattern (c :: s) Some = Some rest
    /\ c :: s = tok ++ rest /\ tok <> []
    /\ forallb not_quote tok = true.
Proof.
  intros H. pose proof (lexical_starts_token c s H) as Hrun.
  destruct (not_quote_chr c (lexical_not_quote c H)) as [Hd Hs].
  rewrite token_pattern_unfold, !quoted_fail by assumption.
  destruct (run (Alts plain_alternatives) (c :: s) Some) as [rest|] eqn:E;
    [|congruence].
  destruct (run_sound _ _ _ _ E) as [tok [rest' [Es [L [= ->]]]]].
  exists tok, rest. repeat split; [exact Es | |].
  - apply (lang_nonempty (Alts plain_alternatives)); [reflexivity | exact L].
  - apply (lang_within _ (Alts plain_alternatives));
      [vm_compute; reflexivity | exact L].
Qed.

Lemma lexable_after tok :
  forall rest, forallb not_quote tok = true ->
               lexable (tok ++ rest) -> lexable rest.
Proof.
  induction tok as [|c tok IH]; intros rest Hq Hl; [exact Hl|].
  simpl in Hq. apply andb_true_iff in Hq as [Hc Hq].
  apply not_quote_chr in Hc as [Hd Hs].
  inversion Hl as [|c' s' _ Hs' | q t s' Hquote _ _]; subst.
  - apply IH; assumption.
  - destruct Hquote as [-> | ->].
    + rewrite chr_eqb_refl in Hd. discriminate.
    + rewrite chr_eqb_refl in Hs. discriminate.
Qed.

(** *** A complete literal is one token *)

Lemma run_Star r s k : run (Star r) s k = star_loop (run r) k (length s) s.
Proof. reflexivity. Qed.

Lemma run_Seq r1 r2 s k :
  run (Seq r1 r2) s k = run r1 s (fun s' => run r2 s' k).
Proof. reflexivity. Qed.

Lemma star_class_stop p kk m u :
  head_in (fun c => negb (p c)) u ->
  star_loop (run (Cls p)) kk m u = kk u.
Proof.
  intros H. destruct m as [|m]; [reflexivity|]. simpl.
  destruct u as [|c u]; [reflexivity|].
  simpl in H. apply negb_true_iff in H. rewrite H. reflexivity.
Qed.

Lemma star_class_step p kk m c u :
  p c = true ->
  star_loop (run (Cls p)) kk (S m) (c :: u)
  = match star_loop (run (Cls p)) kk m u with
    | Some out => Some out
    | None => kk (c :: u)
    end.
Proof.
  intros H. simpl. rewrite H.
  rewrite (proj2 (Nat.ltb_lt (length u) (S (length u)))) by lia.
  reflexivity.
Qed.

Lemma literal_tail_length q t : literal_tail q t -> 0 < length t.
Proof. destruct 1; simpl; lia. Qed.

Lemma plain_chr_quote q : plain_chr q q = false.
Proof. unfold plain_chr. rewrite chr_eqb_refl. reflexivity. Qed.

Lemma plain_chr_backslash q : plain_chr q backslash = false.
Proof.
  unfold plain_chr. rewrite chr_eqb_refl, orb_true_r. reflexivity.
Qed.

(** The plain characters at the start of a literal tail are consumed; the
    rest of the pattern, [kk], is first tried where they end. *)
Lemma plain_run_literal q s t :
  literal_tail q t ->
  forall m kk,
    length t <= m ->
    (forall t', literal_tail q t' ->
                head_in (fun c => negb (plain_chr q c)) t' ->
                length t' <= length t ->
                kk (t' ++ s) = Some s) ->
    star_loop (run (Cls (plain_chr q))) kk m (t ++ s) = Some s.
Proof.
  induction 1 as [|c t Hc Ht IH|c t Hc Ht IH]; intros m kk Hm Hkk.
  - rewrite star_class_stop by (simpl; rewrite plain_chr_quote; reflexivity).
    apply Hkk; [constructor | | lia].
    simpl. rewrite plain_chr_quote. reflexivity.
  - destruct m as [|m]; [simpl in Hm; lia|].
    cbn [app]. rewrite star_class_step by exact Hc.
    rewrite IH; [reflexivity | simpl in Hm; lia |].
    intros t' H1 H2 H3. apply Hkk; [exact H1 | exact H2 | simpl; lia].
  - rewrite star_class_stop
      by (simpl; rewrite plain_chr_backslash; reflexivity).
    apply Hkk; [constructor; assumption | | lia].
    simpl. rewrite plain_chr_backslash. reflexivity.
Qed.

(** The rounds of escapes, then the closing quote. *)
Lemma escape_rounds_literal q s :
  q <> backslash ->
  forall n t,
    length t <= n -> literal_tail q t ->
    head_in (fun c => negb (plain_chr q c)) t ->
    star_loop (run (escape q)) (fun s' => run (Chr q) s' Some) n (t ++ s)
    = Some s.
Proof.
  intros Hq. induction n as [|n IH]; intros t Hn Ht Hh.
  - apply literal_tail_length in Ht. lia.
  - destruct Ht as [|c t Hc Ht|c t Hc Ht].
    + cbn. destruct (Py.chr_eqb backslash q) eqn:E.
      * apply chr_eqb_eq in E. congruence.
      * rewrite chr_eqb_refl. reflexivity.
    + simpl in Hh. rewrite Hc in Hh. discriminate.
    + cbn [app star_loop]. unfold escape at 1.
      unfold Chr at 1. rewrite run_Cls_head by apply chr_eqb_refl.
      unfold any. rewrite run_Cls_head by exact Hc.
      rewrite run_Star, plain_run_literal; [reflexivity | exact Ht | | ].
      * rewrite length_app. lia.
      * intros t' H1 H2 H3. simpl in Hn.
        rewrite (proj2 (Nat.ltb_lt _ _))
          by (simpl; rewrite !length_app; lia).
        apply IH; [lia | exact H1 | exact H2].
Qed.

Lemma quoted_literal q t s :
  q <> backslash -> literal_tail q t ->
  run (quoted q) (q :: t ++ s) Some = Some s.
Proof.
  intros Hq Ht. unfold quoted. unfold Chr at 1.
  rewrite run_Cls_head by apply chr_eqb_refl.
  rewrite run_Seq, run_Star.
  apply plain_run_literal; [exact Ht | rewrite length_app; lia |].
  intros t' H1 H2 _. rewrite run_Seq, run_Star.
  apply escape_rounds_literal; [exact Hq | | exact H1 | exact H2].
  rewrite length_app. lia.
Qed.

Lemma literal_token q t s :
  q = dquote \/ q = squote -> literal_tail q t ->
  run token_pattern (q :: t ++ s) Some = Some s.
Proof.
  intros [-> | ->] Ht; rewrite token_pattern_unfold.
  - rewrite quoted_literal; [reflexivity | discriminate | exact Ht].
  - rewrite quoted_fail by reflexivity.
    rewrite quoted_literal; [reflexivity | discriminate | exact Ht].
Qed.

End Completeness.

Lemma tokenize_nil : tokenize [] = [].
Proof. reflexivity. Qed.

Lemma tokenize_step s tok rest :
  Re.run token_pattern s Some = Some rest -> s = tok ++ rest -> tok <> [] ->
  tokenize s = tok :: tokenize rest.
Proof. apply scan_step. Qed.

Lemma tokenize_lexable n :
  forall line, length line <= n -> lexable line ->
               concat (tokenize line) = line.
Proof.
  induction n as [|n IH]; intros line Hn Hl.
  - destruct line; [reflexivity | simpl in Hn; lia].
  - destruct Hl as [|c s Hc Hs|q t s Hq Ht Hs].
    + reflexivity.
    + destruct (lexical_token c s Hc) as [tok [rest [E [Es [Hne Hnq]]]]].
      rewrite (tokenize_step _ _ _ E Es Hne). simpl concat.
      rewrite IH; [symmetry; exact Es | |].
      * apply (f_equal (@length _)) in Es. rewrite length_app in Es.
        simpl in Es, Hn. destruct tok; [congruence | simpl in Es; lia].
      * apply (lexable_after tok); [exact Hnq|]. rewrite <- Es.
        constructor; assumption.
    + rewrite (tokenize_step (q :: t ++ s) (q :: t) s);
        [| apply literal_token; assumption | reflexivity | discriminate].
      simpl concat. rewrite IH; [reflexivity | | exact Hs].
      simpl in Hn. rewrite length_app in Hn. lia.
Qed.

Lemma lexical_line_lexable line :
  forallb lexical_chr line = true -> lexable line.
Proof.
  induction line as [|c s IH]; simpl; [constructor|].
  rewrite andb_true_iff. intros [Hc Hs]. constructor; auto.
Qed.

(** The claim C1 as it is stated fails on a line that opens a string and
    never closes it: every character is one the lexical rules are written
    with, the quote matches no alternative and is left out of the tokens. *)
Lemma unclosed_quote_is_dropped :
  forallb covered_chr unclosed_line = true
  /\ tokenize unclosed_line = [py "abc"]
  /\ ~ (forall line, forallb covered_chr line = true ->
                     concat (tokenize line) = line).
Proof.
  split; [reflexivity|]. split; [reflexivity|].
  intros H. specialize (H unclosed_line eq_refl).
  vm_compute in H. discriminate.
Qed.

(** C1, amended.  Completeness of the tokenizer: for every line made of
    lexical characters (7-bit letters, digits, underscore, the operator and
    separator characters, white space) and of complete literals in double or
    single quotes, the texts of the tokens of [re.findall], put together in
    their order, are the line. *)
Theorem tokens_rebuild_line (line : list ascii) :
  lexable line -> concat (tokenize line) = line.
Proof. apply (tokenize_lexable (length line)). lia. Qed.

Lemma tokens_rebuild_line_witness :
  lexable quoted_line /\ concat (tokenize quoted_line) = quoted_line.
Proof.
  assert (H : lexable quoted_line).
  { unfold quoted_line.
    do 4 (apply lex_chr; [reflexivity|]).
    apply (lex_lit dquote (py "a\" ++ dquote :: py "b" ++ [dquote])
             (py " + 'c';")); [left; reflexivity | |].
    - apply tail_plain; [reflexivity|].
      apply tail_escape; [reflexivity|].
      apply tail_plain; [reflexivity|]. apply tail_close.
    - do 3 (apply lex_chr; [reflexivity|]).
      apply (lex_lit squote (py "c'") (py ";")); [right; reflexivity | |].
      + apply tail_plain; [reflexivity|]. apply tail_close.
      + apply lex_chr; [reflexivity|]. apply lex_nil. }
  split; [exact H | exact (tokens_rebuild_line _ H)].
Defined.

(** * Further properties *)

(** ** The token stream *)

Section TokenStream.
Import Re.

Lemma lexical_not_passed c s :
  run token_pattern (c :: s) Some = None -> lexical_chr c = false.
Proof.
  intros E. destruct (lexical_chr c) eqn:H; [|reflexivity].
  destruct (lexical_token c s H) as [tok [rest [E' _]]]. congruence.
Qed.

Lemma tokenize_lexed n :
  forall line, length line <= n -> lexed line (tokenize line).
Proof.
  induction n as [|n IH]; intros line Hn.
  - destruct line; [constructor | simpl in Hn; lia].
  - destruct line as [|c s]; [constructor|].
    destruct (run token_pattern (c :: s) Some) as [rest|] eqn:E.
    + destruct (run_sound _ _ _ _ E) as [tok [rest' [Es [L [= ->]]]]].
      pose proof (lang_nonempty _ _ token_pattern_consumes L) as Hne.
      rewrite (tokenize_step _ _ _ E Es Hne). rewrite Es.
      constructor; [exact Hne | exact L |]. apply IH.
      apply (f_equal (@length _)) in Es. rewrite length_app in Es.
      simpl in Es, Hn. destruct tok; [congruence | simpl in Es; lia].
    + unfold tokenize, findall. rewrite scan_pass by exact E.
      constructor; [exact (lexical_not_passed _ _ E)|].
      apply IH. simpl in Hn. lia.
Qed.

(** X1. The tokens of a line stand in the line in their order, without
    overlap; each is a text of the token pattern and is not empty; between
    them only characters that are no lexical characters are left out. *)
Theorem tokens_partition_line (line : list ascii) :
  lexed line (tokenize line).
Proof. apply (tokenize_lexed (length line)). lia. Qed.

Lemma lexed_sublist line toks :
  lexed line toks -> concat toks `sublist_of` line.
Proof.
  induction 1 as [|tok rest toks _ _ _ IH|c rest toks _ _ IH]; simpl.
  - constructor.
  - apply sublist_app; [reflexivity | exact IH].
  - apply sublist_cons, IH.
Qed.

(** X2. The tokenizer adds nothing and changes no order: the texts of the
    tokens, put together, are what is left of the line after leaving out
    some characters; so they are never longer than the line. *)
Theorem tokens_sublist_of_line (line : list ascii) :
  concat (tokenize line) `sublist_of` line
  /\ length (concat (tokenize line)) <= length line.
Proof.
  assert (H : concat (tokenize line) `sublist_of` line)
    by apply lexed_sublist, tokenize_lexed with (n := length line), le_n.
  split; [exact H | apply sublist_length, H].
Qed.

(** X3. No token is empty, and a token is either white space only or has
    no white space at its ends: [strip] in the token loop changes no token
    that is drawn. *)
Theorem tokens_need_no_strip (line : list ascii) :
  Forall (fun tok => tok <> []
                     /\ (Py.isspace tok = true \/ Py.strip tok = tok))
    (tokenize line).
Proof.
  apply scan_tokens. intros s tok H.
  apply match_prefix_lang in H as [H _]. split.
  - exact (lang_nonempty _ _ token_pattern_consumes H).
  - apply token_trimmed, H.
Qed.

(** *** Which alternative takes a character *)

Lemma rejects_sound r :
  forall c s k, rejects r c = true -> run r (c :: s) k = None.
Proof.
  induction r as [|p|r1 IH1 r2 IH2|r1 IH1 r2 IH2|r1 IH1|];
    intros c s k H; simpl in H; try discriminate.
  - simpl. apply negb_true_iff in H. rewrite H. reflexivity.
  - simpl. apply IH1, H.
  - apply andb_true_iff in H as [H1 H2]. simpl.
    rewrite IH1 by exact H1. apply IH2, H2.
Qed.

Lemma run_Alts_cons r rs s k :
  run (Alts (r :: rs)) s k
  = match run r s k with
    | Some out => Some out
    | None => run (Alts rs) s k
    end.
Proof.
  destruct rs as [|r2 rs]; [|reflexivity].
  simpl. destruct (run r s k); [reflexivity|].
  destruct s; reflexivity.
Qed.

Lemma run_Alts_rejected front rs c s k :
  forallb (fun r => rejects r c) front = true ->
  run (Alts (front ++ rs)) (c :: s) k = run (Alts rs) (c :: s) k.
Proof.
  induction front as [|r front IH]; intros H; [reflexivity|].
  simpl in H. apply andb_true_iff in H as [Hr H].
  change ((r :: front) ++ rs) with (r :: front ++ rs).
  rewrite run_Alts_cons, rejects_sound by exact Hr. apply IH, H.
Qed.

Lemma class_rejected_sound p rs c :
  class_rejected p rs = true -> p c = true ->
  forallb (fun r => rejects r c) rs = true.
Proof.
  unfold class_rejected. rewrite forallb_forall. intros H Hp.
  specialize (H c (in_all_chars c)). rewrite Hp in H. exact H.
Qed.

(** The greedy star of a class takes all it can when nothing after it can
    fail. *)
Lemma star_class_greedy p :
  forall n s, length s <= n ->
    star_loop (run (Cls p)) Some n s = Some (drop_while p s).
Proof.
  induction n as [|n IH]; intros s Hn.
  - destruct s; [reflexivity | simpl in Hn; lia].
  - destruct s as [|c s]; [reflexivity|].
    destruct (p c) eqn:E.
    + rewrite star_class_step by exact E. simpl in Hn.
      rewrite IH by lia. simpl. rewrite E. reflexivity.
    + rewrite star_class_stop by (simpl; rewrite E; reflexivity).
      simpl. rewrite E. reflexivity.
Qed.

Lemma take_drop_while p s : take_while p s ++ drop_while p s = s.
Proof.
  induction s as [|c s IH]; simpl; [reflexivity|].
  destruct (p c); simpl; [rewrite IH|]; reflexivity.
Qed.

Lemma run_class_run p c s :
  p c = true ->
  run (Seq (Cls p) (Star (Cls p))) (c :: s) Some = Some (drop_while p s).
Proof.
  intros H. rewrite run_Cls_head by exact H.
  rewrite run_Star. apply star_class_greedy. lia.
Qed.

(** X4. An identifier is taken whole: at a letter or underscore the next
    token is that character with all word characters that follow, whatever
    comes after them. *)
Theorem identifier_token_is_maximal (c : ascii) (s : list ascii) :
  ident_start_chr c = true ->
  tokenize (c :: s)
  = (c :: take_while Py.isword_chr s)
    :: tokenize (drop_while Py.isword_chr s).
Proof.
  intros H. apply tokenize_step; [| |discriminate].
  - change token_pattern
      with (Alts ([quoted dquote; quoted squote; hex_number; dec_number]
                  ++ identifier :: skipn 3 plain_alternatives)).
    rewrite run_Alts_rejected.
    + rewrite run_Alts_cons. unfold identifier, ident_start, word.
      rewrite run_Cls_head by exact H. rewrite run_Star.
      rewrite star_class_greedy by lia. reflexivity.
    + apply (class_rejected_sound ident_start_chr); [|exact H].
      vm_compute. reflexivity.
  - simpl. rewrite take_drop_while. reflexivity.
Qed.

Lemma identifier_token_is_maximal_witness :
  ident_start_chr "x"%char = true
  /\ tokenize (py "x_1y+z")
     = (py "x" ++ take_while Py.isword_chr (py "_1y+z"))
       :: tokenize (drop_while Py.isword_chr (py "_1y+z")).
Proof.
  assert (H : ident_start_chr "x"%char = true) by reflexivity.
  split; [exact H | exact (identifier_token_is_maximal _ (py "_1y+z") H)].
Defined.

(** X5. A run of white space is one token: at a white space character
    the next token is that character with all white space that follows. *)
Theorem whitespace_token_is_maximal (c : ascii) (s : list ascii) :
  Py.isspace_chr c = true ->
  tokenize (c :: s)
  = (c :: take_while Py.isspace_chr s)
    :: tokenize (drop_while Py.isspace_chr s).
Proof.
  intros H. apply tokenize_step; [| |discriminate].
  - change token_pattern
      with (Alts (removelast token_alternatives ++ [Plus space])).
    rewrite run_Alts_rejected.
    + change (Alts [Plus space]) with (Seq space (Star space)).
      apply run_class_run, H.
    + apply (class_rejected_sound Py.isspace_chr); [|exact H].
      vm_compute. reflexivity.
  - simpl. rewrite take_drop_while. reflexivity.
Qed.

Lemma whitespace_token_is_maximal_witness :
  Py.isspace_chr " "%char = true
  /\ tokenize (py "   a")
     = (py " " ++ take_while Py.isspace_chr (py "  a"))
       :: tokenize (drop_while Py.isspace_chr (py "  a")).
Proof.
  assert (H : Py.isspace_chr " "%char = true) by reflexivity.
  split; [exact H | exact (whitespace_token_is_maximal _ (py "  a") H)].
Defined.

(** X6. An operator of two characters is one token wherever it starts a
    piece of text, whatever follows: the alternatives for them stand before
    the class of the one-character operators. *)
Theorem two_char_operator_is_one_token (op : string) (s : list ascii) :
  In op two_char_operators ->
  tokenize (py op ++ s) = py op :: tokenize s.
Proof.
  intros H. apply tokenize_step; [|reflexivity|].
  - simpl in H.
    repeat (destruct H as [<- | H]; [reflexivity|]). destruct H.
  - simpl in H.
    repeat (destruct H as [<- | H]; [discriminate|]). destruct H.
Qed.

Lemma two_char_operator_is_one_token_witness :
  In "->"%string two_char_operators
  /\ tokenize (py "->" ++ py "next->x") = py "->" :: tokenize (py "next->x").
Proof.
  assert (H : In "->"%string two_char_operators) by (simpl; tauto).
  split; [exact H | exact (two_char_operator_is_one_token _ _ H)].
Defined.

End TokenStream.

(** ** The classifier *)

Section Classifier.
Import Re.

Lemma mem_head c t xs :
  Py.mem (c :: t) xs = true -> head_among xs c = true.
Proof.
  unfold Py.mem, head_among. rewrite !existsb_exists.
  intros [k [Hin Hk]]. exists k. split; [exact Hin|].
  destruct (py k) as [|d u]; [discriminate|].
  simpl in Hk. apply andb_true_iff in Hk as [Hk _]. exact Hk.
Qed.

Lemma mem_In tok xs :
  Py.mem tok xs = true -> exists k, In k xs /\ tok = py k.
Proof.
  unfold Py.mem. rewrite existsb_exists. intros [k [Hin Hk]].
  exists k. split; [exact Hin | apply str_eqb_eq, Hk].
Qed.

Lemma mem_space_false c t xs :
  forallb (fun c => implb (Py.isspace_chr c) (negb (head_among xs c)))
    all_chars = true ->
  Py.isspace_chr c = true -> Py.mem (c :: t) xs = false.
Proof.
  rewrite forallb_forall. intros Hall Hc.
  specialize (Hall c (in_all_chars c)). rewrite Hc in Hall. simpl in Hall.
  destruct (Py.mem (c :: t) xs) eqn:E; [|reflexivity].
  apply mem_head in E. rewrite E in Hall. discriminate.
Qed.

Lemma matches_rejected r c t :
  rejects r c = true -> matches r (c :: t) = false.
Proof.
  intros H. unfold matches. rewrite rejects_sound by exact H. reflexivity.
Qed.

Lemma space_shapes_rejected c :
  Py.isspace_chr c = true ->
  rejects identifier_shape c = true /\ rejects number_shape c = true.
Proof.
  intros H.
  assert (R : forallb (fun r => rejects r c)
                [identifier_shape; number_shape] = true).
  { apply (class_rejected_sound Py.isspace_chr); [|exact H].
    vm_compute. reflexivity. }
  cbn [forallb] in R. rewrite !andb_true_iff in R. tauto.
Qed.

Lemma isspace_head c t :
  Py.isspace (c :: t) = true -> Py.isspace_chr c = true.
Proof. simpl. rewrite andb_true_iff. tauto. Qed.

Lemma token_category_of_space prev token next :
  Py.isspace token = true -> token_category prev token next = Whitespace.
Proof.
  intros H. destruct token as [|c t]; [discriminate|].
  pose proof (isspace_head _ _ H) as Hc.
  assert (Hq : not_quote c = true)
    by (revert Hc; apply subclass_sound; vm_compute; reflexivity).
  apply not_quote_chr in Hq as [Hd Hs].
  destruct (space_shapes_rejected c Hc) as [Ri Rn].
  unfold token_category. cbv zeta.
  change (Py.startswith (c :: t) [dquote]) with (Py.chr_eqb dquote c && true).
  change (Py.startswith (c :: t) [squote]) with (Py.chr_eqb squote c && true).
  rewrite Hd, Hs. cbn [andb orb].
  rewrite !(mem_space_false c t) by (try exact Hc; vm_compute; reflexivity).
  rewrite !matches_rejected by assumption.
  rewrite !andb_false_r. cbn [andb]. rewrite H. reflexivity.
Qed.

(** X7. A token is classified [Whitespace], and so moves the pen without a
    call of [drawString], exactly when it is white space, whatever stands
    next to it. *)
Theorem whitespace_iff_blank (prev next : option (list ascii))
    (token : list ascii) :
  token_category prev token next = Whitespace <-> Py.isspace token = true.
Proof.
  split; [|apply token_category_of_space].
  unfold token_category. cbv zeta.
  destruct (Py.isspace token); [reflexivity|].
  split_ifs; discriminate.
Qed.

(** *** Words of the vocabularies *)

Lemma vocabulary_not_in_quotes :
  forallb (fun k => negb (in_quotes (py k))) (keywords ++ types) = true.
Proof. vm_compute. reflexivity. Qed.

Lemma types_are_no_keywords :
  forallb (fun k => negb (Py.mem (py k) keywords)) types = true.
Proof. vm_compute. reflexivity. Qed.

(** X9. The vocabularies come before every rule of context: a token that is
    a keyword is a [Keyword], a token that is a type name is a [TypeName],
    whatever stands before or after it; a type name before a parenthesis or
    after a dot or [::] keeps the colour of types. *)
Theorem vocabulary_beats_context (prev next : option (list ascii))
    (token : list ascii) :
  (Py.mem token keywords = true -> token_category prev token next = Keyword)
  /\ (Py.mem token types = true -> token_category prev token next = TypeName).
Proof.
  pose proof vocabulary_not_in_quotes as Hq.
  rewrite forallb_forall in Hq.
  split; intros H; pose proof H as H'; apply mem_In in H' as [k [Hin ->]];
    unfold token_category; cbv zeta.
  - specialize (Hq k (in_or_app _ _ _ (or_introl Hin))).
    apply negb_true_iff in Hq. unfold in_quotes in Hq.
    rewrite Hq, H. reflexivity.
  - specialize (Hq k (in_or_app _ _ _ (or_intror Hin))).
    apply negb_true_iff in Hq. unfold in_quotes in Hq.
    pose proof types_are_no_keywords as Hk. rewrite forallb_forall in Hk.
    specialize (Hk k Hin). apply negb_true_iff in Hk.
    rewrite Hq, Hk, H. reflexivity.
Qed.

Lemma vocabulary_beats_context_witness :
  Py.mem (py "map") types = true
  /\ token_category (Some (py ".")) (py "map") (Some (py "(")) = TypeName.
Proof.
  assert (H : Py.mem (py "map") types = true) by reflexivity.
  split; [exact H|].
  exact (proj2 (vocabulary_beats_context (Some (py "."))
                  (Some (py "(")) (py "map")) H).
Defined.

End Classifier.

(** ** The token loop on the token stream *)

Section ClassifierStream.
Import Re.

Lemma token_loop_classify tokens :
  Forall trimmed tokens ->
  forall prev, token_loop prev tokens = classify_with prev tokens.
Proof.
  induction 1 as [|t ts Ht _ IH]; intros prev; [reflexivity|].
  cbn [token_loop classify_with]. destruct Ht as [Hs | Hs].
  - rewrite (token_category_of_space _ _ _ Hs). f_equal. apply IH.
  - rewrite Hs. destruct (token_category prev t (hd_error ts));
      f_equal; apply IH.
Qed.

Lemma draw_code_tokens_classify line :
  draw_code_tokens line = classify_with None (tokenize line).
Proof. apply token_loop_classify, tokenize_trimmed. Qed.

(** X11. On the tokens of a line the token loop is the plain chain of
    tests: every token gives one span with its text, in order, classified
    with the stream elements right before and after it.  The [strip] calls
    and the separate update of [prev_token] for white space change
    nothing. *)
Theorem token_loop_uses_literal_neighbours (line : list ascii) :
  draw_code_tokens line = classify_with None (tokenize line).
Proof. apply draw_code_tokens_classify. Qed.

Lemma classify_with_nth tokens :
  forall prev i sp,
    nth_error (classify_with prev tokens) i = Some sp ->
    nth_error tokens i = Some (text sp)
    /\ category sp
       = token_category
           (match i with O => prev | S j => nth_error tokens j end)
           (text sp) (nth_error tokens (S i)).
Proof.
  induction tokens as [|t ts IH]; intros prev i sp H.
  - destruct i; discriminate.
  - destruct i as [|i]; simpl in H.
    + injection H as <-. simpl. split; [reflexivity|].
      destruct ts; reflexivity.
    + apply IH in H as [H1 H2]. split; [exact H1|].
      rewrite H2. destruct i; reflexivity.
Qed.

Lemma token_category_namespace prev token next :
  token_category prev token next = NamespaceAccess ->
  prev = Some (py "::") /\ matches identifier_shape token = true.
Proof.
  unfold token_category. cbv zeta.
  destruct (_ || _); [discriminate|].
  destruct (Py.mem token keywords); [discriminate|].
  destruct (Py.mem token types); [discriminate|].
  destruct (matches identifier_shape token && _); [discriminate|].
  destruct (_ && matches identifier_shape token); [discriminate|].
  destruct (_ && matches identifier_shape token) eqn:E.
  - intros _. apply andb_true_iff in E as [E1 E2]. split; [|exact E2].
    destruct prev as [p|]; [|discriminate].
    unfold Py.mem in E1. simpl in E1. rewrite orb_false_r in E1.
    apply str_eqb_eq in E1. subst p. reflexivity.
  - split_ifs; discriminate.
Qed.

(** X10. Strict adjacency for names after [::]: a span is a
    [NamespaceAccess] only if its token has the shape of an identifier and
    the element of the stream just before it is the token [::]. *)
Theorem namespace_access_adjacency (line : list ascii) (i : nat)
    (sp : Span) :
  nth_error (draw_code_tokens line) i = Some sp ->
  category sp = NamespaceAccess ->
  matches identifier_shape (text sp) = true
  /\ exists j, i = S j /\ nth_error (tokenize line) j = Some (py "::").
Proof.
  rewrite draw_code_tokens_classify. intros H Hc.
  apply classify_with_nth in H as [_ H]. rewrite Hc in H. symmetry in H.
  apply token_category_namespace in H as [Hp Hm]. split; [exact Hm|].
  destruct i as [|j]; [discriminate|]. exists j. auto.
Qed.

End ClassifierStream.

Lemma namespace_access_adjacency_witness :
  nth_error (draw_code_tokens (py "ns::name")) 2
  = Some (mkSpan (py "name") NamespaceAccess)
  /\ Re.matches identifier_shape (py "name") = true
  /\ exists j, 2 = S j
               /\ nth_error (tokenize (py "ns::name")) j = Some (py "::").
Proof.
  assert (H : nth_error (draw_code_tokens (py "ns::name")) 2
              = Some (mkSpan (py "name") NamespaceAccess))
    by (vm_compute; reflexivity).
  split; [exact H|].
  exact (namespace_access_adjacency (py "ns::name") 2 _ H eq_refl).
Defined.

(** *** Literals in quotes *)

Section StringTokens.
Import Re.

Lemma head_startswith q tok :
  tok <> [] -> head_in (Py.chr_eqb q) tok -> Py.startswith tok [q] = true.
Proof.
  destruct tok as [|c t]; [congruence|]. simpl. intros _ H.
  rewrite H. reflexivity.
Qed.

Lemma opens_quote_head tok :
  opens_quote tok = true -> head_in not_quote tok -> False.
Proof.
  unfold opens_quote, head_in. destruct tok as [|c t]; [discriminate|].
  change (Py.startswith (c :: t) [dquote]) with (Py.chr_eqb dquote c && true).
  change (Py.startswith (c :: t) [squote]) with (Py.chr_eqb squote c && true).
  rewrite !andb_true_r, orb_true_iff, !chr_eqb_eq.
  intros [<- | <-] H; vm_compute in H; discriminate.
Qed.

Lemma token_alternatives_quote_closed :
  forallb quote_closed_alternative token_alternatives = true.
Proof. vm_compute. reflexivity. Qed.

Lemma quoted_token_closed tok :
  lang token_pattern tok -> opens_quote tok = true -> in_quotes tok = true.
Proof.
  intros L Ho. apply lang_Alts in L as [r [Hin L]].
  pose proof token_alternatives_quote_closed as Hall.
  rewrite forallb_forall in Hall. specialize (Hall r Hin).
  unfold quote_closed_alternative in Hall.
  apply orb_true_iff in Hall as [Hs | Hq].
  - exfalso. exact (opens_quote_head _ Ho (lang_starts _ _ _ Hs L)).
  - apply andb_true_iff in Hq as [Hc Hq].
    pose proof (lang_nonempty _ _ Hc L) as Hne.
    assert (Hrev : rev tok <> []).
    { intros E. apply (f_equal (@rev _)) in E.
      rewrite rev_involutive in E. exact (Hne E). }
    unfold in_quotes, Py.endswith.
    apply orb_true_iff in Hq as [Hq | Hq];
      apply andb_true_iff in Hq as [Hs He];
      rewrite (head_startswith _ tok Hne (lang_starts _ _ _ Hs L));
      change (rev [?q]) with [q];
      rewrite (head_startswith _ (rev tok) Hrev (lang_ends _ _ _ He L)).
    + reflexivity.
    + apply orb_true_r.
Qed.

Lemma token_category_string prev token next :
  token_category prev token next = StringLit <-> in_quotes token = true.
Proof.
  unfold token_category, in_quotes. cbv zeta.
  destruct (_ || _); [split; reflexivity|].
  split; [|discriminate]. split_ifs; discriminate.
Qed.

Lemma in_quotes_opens tok : in_quotes tok = true -> opens_quote tok = true.
Proof.
  unfold in_quotes, opens_quote.
  rewrite !orb_true_iff, !andb_true_iff. tauto.
Qed.

Lemma tokenize_lang line : Forall (lang token_pattern) (tokenize line).
Proof.
  apply scan_tokens. intros s tok H.
  apply match_prefix_lang in H as [H _]. exact H.
Qed.

(** X8. A token that starts with a quote is a complete literal, it ends
    with the same quote, and is drawn as a string whatever it holds and
    whatever stands next to it; no other token is drawn as a string. *)
Theorem string_iff_opens_quote (line : list ascii) (i : nat) (sp : Span) :
  nth_error (draw_code_tokens line) i = Some sp ->
  (category sp = StringLit <-> opens_quote (text sp) = true)
  /\ (opens_quote (text sp) = true -> in_quotes (text sp) = true).
Proof.
  rewrite draw_code_tokens_classify. intros H.
  apply classify_with_nth in H as [Ht Hc].
  assert (L : lang token_pattern (text sp)).
  { pose proof (tokenize_lang line) as Hall.
    rewrite List.Forall_forall in Hall. apply Hall.
    eapply nth_error_In, Ht. }
  split; [|apply quoted_token_closed, L].
  rewrite Hc, token_category_string. split.
  - apply in_quotes_opens.
  - apply quoted_token_closed, L.
Qed.

End StringTokens.

Lemma string_iff_opens_quote_witness :
  nth_error (draw_code_tokens quoted_line) 4
  = Some (mkSpan (dquote :: py "a\" ++ dquote :: py "b" ++ [dquote])
            StringLit)
  /\ (StringLit = StringLit <->
      opens_quote (dquote :: py "a\" ++ dquote :: py "b" ++ [dquote]) = true)
  /\ (opens_quote (dquote :: py "a\" ++ dquote :: py "b" ++ [dquote]) = true
      -> in_quotes (dquote :: py "a\" ++ dquote :: py "b" ++ [dquote])
         = true).
Proof.
  assert (H : nth_error (draw_code_tokens quoted_line) 4
              = Some (mkSpan
                        (dquote :: py "a\" ++ dquote :: py "b" ++ [dquote])
                        StringLit))
    by (vm_compute; reflexivity).
  split; [exact H|].
  exact (string_iff_opens_quote quoted_line 4 _ H).
Defined.

(** ** What a line puts on the canvas *)

Section LineText.
Import Re.

Lemma classify_with_text tokens :
  forall prev, map text (classify_with prev tokens) = tokens.
Proof.
  induction tokens as [|t ts IH]; intros prev; simpl; [reflexivity|].
  rewrite IH. reflexivity.
Qed.

Lemma draw_code_tokens_text line :
  span_text (draw_code_tokens line) = concat (tokenize line).
Proof.
  unfold span_text.
  rewrite draw_code_tokens_classify, classify_with_text. reflexivity.
Qed.

Lemma if_nonempty_text s :
  span_text (if_nonempty s draw_code_tokens) = concat (tokenize s).
Proof. destruct s; [reflexivity | apply draw_code_tokens_text]. Qed.

Lemma span_text_one t c : span_text [mkSpan t c] = t.
Proof. unfold span_text. simpl. apply app_nil_r. Qed.

Lemma span_text_app a b : span_text (a ++ b) = span_text a ++ span_text b.
Proof. unfold span_text. rewrite map_app, concat_app. reflexivity. Qed.

Lemma find_from_ge sub s n e : Py.find_from sub s n = Some e -> n <= e.
Proof.
  unfold Py.find_from. destruct (length s <? n); [discriminate|].
  intros H. apply find_at_Some in H as [pre [post [_ ->]]]. lia.
Qed.

Lemma find_from_occurs sub s n e :
  Py.find_from sub s n = Some e -> occurs sub s.
Proof.
  unfold Py.find_from. destruct (length s <? n); [discriminate|].
  intros H. apply find_at_Some in H as [pre [post [E _]]].
  rewrite <- (take_drop n s), E. apply occurs_app_r.
  exists pre, post. reflexivity.
Qed.

Lemma three_pieces {A} a b (l : list A) :
  a <= b -> Py.upto a l ++ Py.slice a b l ++ Py.from b l = l.
Proof.
  intros H. unfold Py.upto, Py.slice, Py.from.
  rewrite app_assoc, take_take_drop.
  replace (a + (b - a)) with b by lia. apply take_drop.
Qed.

(** The line is cut into pieces without loss, and the canvas gets the
    pieces, those for the token loop as their tokens. *)
Lemma highlight_code_line_pieces line :
  exists pieces,
    concat (map snd pieces) = line
    /\ span_text (fst (highlight_code_line line)) = render pieces.
Proof.
  unfold highlight_code_line.
  destruct (Py.find (py "/*") line) as [start|] eqn:Eo.
  - destruct (Py.find_from (py "*/") line (start + 2)) as [stop|] eqn:Ec.
    + exists [(true, Py.upto start line);
              (false, Py.slice start (stop + 2) line);
              (true, Py.from (stop + 2) line)].
      split.
      * simpl. rewrite app_nil_r. apply three_pieces.
        apply find_from_ge in Ec. lia.
      * cbn [fst]. rewrite !span_text_app, !if_nonempty_text, !span_text_one.
        unfold render. simpl. rewrite !app_nil_r. reflexivity.
    + exists [(true, Py.upto start line); (false, Py.from start line)].
      split.
      * simpl. rewrite app_nil_r. apply take_drop.
      * cbn [fst]. rewrite !span_text_app, !if_nonempty_text, !span_text_one.
        unfold render. simpl. rewrite !app_nil_r. reflexivity.
  - destruct (matches preprocessor_pattern line).
    + exists [(false, line)]. split; simpl; rewrite ?app_nil_r; reflexivity.
    + destruct (Py.find (py "//") line) as [start|].
      * exists [(true, Py.upto start line); (false, Py.from start line)].
        split.
        -- simpl. rewrite app_nil_r. apply take_drop.
        -- cbn [fst]. rewrite !span_text_app, !if_nonempty_text, !span_text_one.
           unfold render. simpl. rewrite !app_nil_r. reflexivity.
      * exists [(true, line)]. split; [simpl; apply app_nil_r|].
        cbn [fst]. rewrite draw_code_tokens_text.
        unfold render. simpl. rewrite app_nil_r. reflexivity.
Qed.

Lemma draw_highlighted_line_pieces line st :
  exists pieces,
    concat (map snd pieces) = line
    /\ span_text (fst (draw_highlighted_line line st)) = render pieces.
Proof.
  unfold draw_highlighted_line. destruct st;
    [|apply highlight_code_line_pieces].
  destruct (Py.find (py "*/") line) as [stop|].
  - destruct (highlight_code_line_pieces (Py.from (stop + 2) line))
      as [pieces [E R]].
    exists ((false, Py.upto (stop + 2) line) :: pieces). split.
    + simpl. rewrite E. apply take_drop.
    + cbn [fst]. unfold span_text in *. unfold render in *. simpl.
      f_equal. destruct (Py.from (stop + 2) line) eqn:Er.
      * destruct pieces as [|[b p] pieces]; [reflexivity|].
        simpl in E. apply app_eq_nil in E as [Ep Eps].
        simpl in Ep. subst p.
        assert (Hn : forall ps, concat (map snd ps) = [] ->
                  concat (map (fun p : bool * list ascii =>
                                 if fst p then concat (tokenize (snd p))
                                 else snd p) ps) = []).
        { induction ps as [|[b' p'] ps IHp]; simpl; [reflexivity|].
          intros Hp. apply app_eq_nil in Hp as [-> Hp].
          rewrite IHp by exact Hp. destruct b'; reflexivity. }
        simpl. rewrite Hn by exact Eps. destruct b; reflexivity.
      * exact R.
  - exists [(false, line)]. split; simpl; rewrite ?app_nil_r; reflexivity.
Qed.

Lemma render_sublist pieces :
  render pieces `sublist_of` concat (map snd pieces).
Proof.
  unfold render. induction pieces as [|[b p] pieces IH]; simpl.
  - constructor.
  - apply sublist_app; [|exact IH]. destruct b; simpl; [|reflexivity].
    apply lexed_sublist, tokenize_lexed with (n := length p), le_n.
Qed.

Lemma forallb_concat {A} (p : A -> bool) ls :
  forallb p (concat ls) = true -> Forall (fun l => forallb p l = true) ls.
Proof.
  induction ls as [|l ls IH]; simpl; [constructor|].
  rewrite forallb_app, andb_true_iff. intros [H1 H2].
  constructor; auto.
Qed.

Lemma render_lexical pieces :
  forallb lexical_chr (concat (map snd pieces)) = true ->
  render pieces = concat (map snd pieces).
Proof.
  unfold render. induction pieces as [|[b p] pieces IH]; simpl;
    [reflexivity|].
  rewrite forallb_app, andb_true_iff. intros [Hp Hps].
  rewrite IH by exact Hps. f_equal. destruct b; simpl; [|reflexivity].
  apply (tokenize_lexable (length p)); [lia|].
  apply lexical_line_lexable, Hp.
Qed.

(** X12. A line of lexical characters reaches the canvas whole, in either
    state: the texts of its spans, put together in order, are the line. *)
Theorem spans_rebuild_lexical_line (line : list ascii) (st : bool) :
  forallb lexical_chr line = true ->
  span_text (fst (draw_highlighted_line line st)) = line.
Proof.
  intros H. destruct (draw_highlighted_line_pieces line st)
    as [pieces [E R]].
  rewrite R, render_lexical; [exact E | rewrite E; exact H].
Qed.

(** X13. Whatever the line and the state, the canvas gets nothing that is
    not in the line, and nothing twice or out of order: the text of the
    spans is the line with some characters left out. *)
Theorem spans_sublist_of_line (line : list ascii) (st : bool) :
  span_text (fst (draw_highlighted_line line st)) `sublist_of` line.
Proof.
  destruct (draw_highlighted_line_pieces line st) as [pieces [E R]].
  rewrite R, <- E. apply render_sublist.
Qed.

End LineText.

Lemma spans_rebuild_lexical_line_witness :
  forallb lexical_chr (py "x = a /* b */ + 1; // c") = true
  /\ span_text (fst (draw_highlighted_line (py "x = a /* b */ + 1; // c")
                       false))
     = py "x = a /* b */ + 1; // c".
Proof.
  assert (H : forallb lexical_chr (py "x = a /* b */ + 1; // c") = true)
    by reflexivity.
  split; [exact H | exact (spans_rebuild_lexical_line _ false H)].
Defined.

(** ** Directives *)

Section Directives.
Import Re.

Lemma space_is_no_hash c :
  Py.isspace_chr c = true -> Py.chr_eqb "#"%char c = false.
Proof.
  intros H. apply negb_true_iff. revert H.
  apply (subclass_sound Py.isspace_chr
           (fun c => negb (Py.chr_eqb "#"%char c))).
  vm_compute. reflexivity.
Qed.

Lemma hash_after_spaces n :
  forall s, length s <= n ->
    match star_loop (run (Cls Py.isspace_chr))
            (fun s' => run (Chr "#"%char) s' Some) n s with
    | Some _ => true
    | None => false
    end = Py.startswith (Py.lstrip s) (py "#").
Proof.
  induction n as [|n IH]; intros s Hn.
  - destruct s; [reflexivity | simpl in Hn; lia].
  - destruct s as [|c s]; [reflexivity|].
    destruct (Py.isspace_chr c) eqn:E.
    + rewrite star_class_step by exact E. simpl in Hn.
      cbn [Py.lstrip]. rewrite E, <- IH by lia.
      destruct (star_loop _ _ n s); [reflexivity|].
      unfold Chr. cbn [run]. rewrite space_is_no_hash by exact E.
      reflexivity.
    + rewrite star_class_stop by (simpl; rewrite E; reflexivity).
      cbn [Py.lstrip]. rewrite E. unfold Chr. cbn [run].
      change (Py.startswith (c :: s) (py "#"))
        with (Py.chr_eqb "#"%char c && true).
      destruct (Py.chr_eqb "#"%char c); reflexivity.
Qed.

Lemma preprocessor_matches line :
  matches preprocessor_pattern line
  = Py.startswith (Py.lstrip line) (py "#").
Proof.
  unfold matches, preprocessor_pattern, space.
  rewrite run_Seq, run_Star. apply hash_after_spaces. lia.
Qed.

Lemma if_nonempty_code s :
  Forall (fun sp => code_category (category sp))
    (if_nonempty s draw_code_tokens).
Proof. destruct s; [constructor | apply draw_code_tokens_code]. Qed.

(** X14. A line counts as a directive exactly when its first character
    after leading white space is [#].  In state [Normal] such a line
    without [/*] is one [Preprocessor] span with the whole line as text,
    even if it holds a [//]; a line that holds [/*] gets no [Preprocessor]
    span at all, the comment rule comes first. *)
Theorem directive_lines (line : list ascii) :
  matches preprocessor_pattern line = Py.startswith (Py.lstrip line) (py "#")
  /\ (~ occurs (py "/*") line ->
      Py.startswith (Py.lstrip line) (py "#") = true ->
      draw_highlighted_line line false = ([mkSpan line Preprocessor], false))
  /\ (occurs (py "/*") line ->
      Forall (fun sp => category sp <> Preprocessor)
        (fst (draw_highlighted_line line false))).
Proof.
  split; [apply preprocessor_matches|]. split.
  - intros Ho Hh. apply find_None in Ho.
    unfold draw_highlighted_line, highlight_code_line.
    rewrite Ho, preprocessor_matches, Hh. reflexivity.
  - intros Ho. apply find_Some in Ho as [start Ho].
    unfold draw_highlighted_line, highlight_code_line. rewrite Ho.
    assert (Hcode : forall s,
              Forall (fun sp => category sp <> Preprocessor)
                (if_nonempty s draw_code_tokens)).
    { intros s. eapply Forall_impl; [apply if_nonempty_code|].
      intros sp [_ [_ H]]. exact H. }
    destruct (Py.find_from (py "*/") line (start + 2)); cbn [fst];
      repeat (apply Forall_app; split); try apply Hcode;
      repeat constructor; discriminate.
Qed.

End Directives.

Lemma directive_lines_witness :
  ~ occurs (py "/*") (py "  #define N 10 // ten")
  /\ Py.startswith (Py.lstrip (py "  #define N 10 // ten")) (py "#") = true
  /\ draw_highlighted_line (py "  #define N 10 // ten") false
     = ([mkSpan (py "  #define N 10 // ten") Preprocessor], false).
Proof.
  assert (H1 : ~ occurs (py "/*") (py "  #define N 10 // ten"))
    by (apply find_None; reflexivity).
  assert (H2 : Py.startswith (Py.lstrip (py "  #define N 10 // ten"))
                 (py "#") = true) by reflexivity.
  split; [exact H1|]. split; [exact H2|].
  exact (proj1 (proj2 (directive_lines _)) H1 H2).
Defined.

(** ** The state of the line machine and the flag of the chunker *)

Lemma exit_state_in_comment line :
  snd (draw_highlighted_line line true) = negb (Py.contains (py "*/") line).
Proof.
  unfold draw_highlighted_line, Py.contains.
  destruct (Py.find (py "*/") line); reflexivity.
Qed.

Lemma exit_state_normal line :
  snd (draw_highlighted_line line false) = leaves_open line.
Proof.
  unfold draw_highlighted_line, highlight_code_line, leaves_open.
  destruct (Py.find (py "/*") line) as [start|].
  - destruct (Py.find_from (py "*/") line (start + 2)); reflexivity.
  - destruct (Re.matches preprocessor_pattern line); [reflexivity|].
    destruct (Py.find (py "//") line); reflexivity.
Qed.

Lemma leaves_open_contains line :
  leaves_open line = true -> Py.contains (py "/*") line = true.
Proof.
  unfold leaves_open, Py.contains.
  destruct (Py.find (py "/*") line); [reflexivity | discriminate].
Qed.

Lemma open_no_close_leaves_open line :
  Py.contains (py "/*") line = true ->
  Py.contains (py "*/") line = false ->
  leaves_open line = true.
Proof.
  unfold leaves_open, Py.contains at 1.
  destruct (Py.find (py "/*") line) as [start|]; [|discriminate].
  intros _ Hc.
  destruct (Py.find_from (py "*/") line (start + 2)) eqn:E; [|reflexivity].
  apply find_from_occurs, contains_true in E. congruence.
Qed.

Lemma exit_state_vs_flag (line : list ascii) (st : bool) :
  snd (draw_highlighted_line line st) = scan_line st line
  <-> ~ (st = false /\ leaves_open line = true
         /\ Py.contains (py "*/") line = true).
Proof.
  unfold scan_line. destruct st.
  - rewrite exit_state_in_comment.
    destruct (Py.contains (py "*/") line);
      destruct (Py.contains (py "/*") line); simpl;
      split; try reflexivity; intros _ [H _]; discriminate.
  - rewrite exit_state_normal.
    destruct (Py.contains (py "*/") line) eqn:Hc;
      destruct (Py.contains (py "/*") line) eqn:Ho; simpl.
    + destruct (leaves_open line); split; try reflexivity.
      * intros H _. discriminate.
      * intros H. exfalso. apply H. auto.
      * intros _ [_ [H _]]. discriminate.
    + destruct (leaves_open line) eqn:E; split; try reflexivity.
      * intros H. discriminate.
      * apply leaves_open_contains in E. congruence.
      * intros _ [_ [H _]]. discriminate.
    + rewrite open_no_close_leaves_open by assumption.
      split; [|reflexivity]. intros _ [_ [_ H]]. discriminate.
    + destruct (leaves_open line) eqn:E; split; try reflexivity.
      * apply leaves_open_contains in E. congruence.
      * apply leaves_open_contains in E. congruence.
      * intros _ [_ [_ H]]. discriminate.
Qed.

(** X15. The flag that [create_pdf] computes after a line is the state in
    which [draw_highlighted_line] leaves the line, except in one case: the
    line is read in state [Normal], leaves a comment open, and holds a
    [*/] as well (before the [/*], or sharing its star). *)
Theorem flag_follows_line_state (line : list ascii) (st : bool) :
  snd (draw_highlighted_line line st) = scan_line st line
  <-> ~ (st = false /\ leaves_open line = true
         /\ Py.contains (py "*/") line = true).
Proof. apply exit_state_vs_flag. Qed.

Lemma steady_flag line st :
  steady line -> scan_line st line = snd (draw_highlighted_line line st).
Proof.
  intros H. symmetry. apply exit_state_vs_flag. intros [_ [Ho Hc]].
  rewrite (H Ho) in Hc. discriminate.
Qed.

Lemma steady_scan ls :
  Forall steady ls ->
  forall st, fold_left scan_line ls st = line_state st ls.
Proof.
  unfold line_state. induction 1 as [|l ls Hl _ IH]; intros st; simpl;
    [reflexivity|].
  rewrite steady_flag by exact Hl. apply IH.
Qed.

Lemma steady_check ls :
  forallb (fun l => negb (leaves_open l)
                    || negb (Py.contains (py "*/") l)) ls = true ->
  Forall steady ls.
Proof.
  induction ls as [|l ls IH]; simpl; [constructor|].
  rewrite andb_true_iff. intros [Hl Hls]. constructor; [|apply IH, Hls].
  intros Ho. rewrite Ho in Hl. simpl in Hl.
  apply negb_true_iff in Hl. exact Hl.
Qed.

(** X16. The flag a block starts with is the state that [draw] would have
    reached on the lines before the block, had they been drawn in one
    block, as long as none of those lines leaves a comment open while
    holding a [*/]. *)
Theorem entry_state_is_line_state (code_content : list ascii)
    (f : SyntaxHighlightedCode) :
  In f (chunks code_content) ->
  Forall steady (preceding_lines code_content f) ->
  in_block_comment f = line_state false (preceding_lines code_content f).
Proof.
  intros Hin Hs. rewrite (chunks_entry_state _ _ Hin).
  apply steady_scan, Hs.
Qed.

Lemma entry_state_is_line_state_witness :
  In (mkFlowable [] 56 false true true) (chunks open_comment_file)
  /\ Forall steady
       (preceding_lines open_comment_file
          (mkFlowable [] 56 false true true))
  /\ true = line_state false
              (preceding_lines open_comment_file
                 (mkFlowable [] 56 false true true)).
Proof.
  assert (Hin : In (mkFlowable [] 56 false true true)
                  (chunks open_comment_file))
    by (vm_compute; right; left; reflexivity).
  assert (Hs : Forall steady
                 (preceding_lines open_comment_file
                    (mkFlowable [] 56 false true true)))
    by (apply steady_check; vm_compute; reflexivity).
  split; [exact Hin|]. split; [exact Hs|].
  exact (entry_state_is_line_state _ _ Hin Hs).
Defined.

(** ** The blocks of a file *)

Lemma chunk_loop_map all_lines num_chunks k :
  forall a st,
    st = fold_left scan_line
           (Py.upto (a * max_lines_per_chunk) all_lines) false ->
    chunk_loop all_lines num_chunks (seq a k) st
    = map (chunk_at all_lines num_chunks) (seq a k).
Proof.
  induction k as [|k IH]; intros a st Hst; [reflexivity|].
  cbn [seq chunk_loop map]. f_equal.
  - unfold chunk_at. rewrite Hst. reflexivity.
  - apply IH. rewrite Hst, <- fold_left_app, upto_next_chunk.
    do 2 f_equal. unfold max_lines_per_chunk. lia.
Qed.

Lemma num_chunks_bounds n :
  1 <= n ->
  let k := (n + max_lines_per_chunk - 1) / max_lines_per_chunk in
  n <= k * max_lines_per_chunk /\ (k - 1) * max_lines_per_chunk < n
  /\ 1 <= k.
Proof.
  unfold max_lines_per_chunk. intros H. cbv zeta.
  pose proof (Nat.div_mod_eq (n + 55 - 1) 55) as E.
  pose proof (Nat.mod_upper_bound (n + 55 - 1) 55) as B.
  set (k := (n + 55 - 1) / 55) in *. lia.
Qed.

Lemma split_nl_length s : 1 <= length (Py.split_nl s).
Proof. destruct (split_nl_cons s) as [l [ls ->]]. simpl. lia. Qed.

Lemma chunks_map code_content :
  max_lines_per_chunk < length (Py.split_nl code_content) ->
  chunks code_content
  = map (chunk_at (Py.split_nl code_content)
           ((length (Py.split_nl code_content) + max_lines_per_chunk - 1)
            / max_lines_per_chunk))
      (seq 0 ((length (Py.split_nl code_content) + max_lines_per_chunk - 1)
              / max_lines_per_chunk)).
Proof.
  intros H. unfold chunks. apply Nat.ltb_lt in H. rewrite H.
  apply chunk_loop_map. reflexivity.
Qed.

Lemma slice_lines_at (all_lines : list (list ascii)) i :
  Py.slice (i * max_lines_per_chunk)
    (Nat.min (i * max_lines_per_chunk + max_lines_per_chunk)
       (length all_lines))
    all_lines
  = lines_at all_lines i.
Proof.
  unfold Py.slice, lines_at.
  destruct (Nat.le_gt_cases (i * max_lines_per_chunk + max_lines_per_chunk)
              (length all_lines)) as [H | H].
  - rewrite Nat.min_l by exact H. f_equal. lia.
  - rewrite Nat.min_r by lia.
    rewrite !take_ge; [reflexivity | |]; rewrite length_drop; lia.
Qed.

Lemma lines_chunk_at code_content n i :
  i * max_lines_per_chunk < length (Py.split_nl code_content) ->
  lines (chunk_at (Py.split_nl code_content) n i)
  = lines_at (Py.split_nl code_content) i.
Proof.
  intros H. unfold lines, chunk_at. cbn [code].
  rewrite chunk_lines by (unfold max_lines_per_chunk in *; lia).
  apply slice_lines_at.
Qed.

Lemma lines_at_concat (all_lines : list (list ascii)) k :
  forall a,
    concat (map (lines_at all_lines) (seq a k))
    = firstn (k * max_lines_per_chunk)
        (skipn (a * max_lines_per_chunk) all_lines).
Proof.
  induction k as [|k IH]; intros a; [reflexivity|].
  cbn [seq map concat]. rewrite IH. unfold lines_at.
  replace (S a * max_lines_per_chunk)
    with (a * max_lines_per_chunk + max_lines_per_chunk) by lia.
  rewrite <- drop_drop, take_take_drop. reflexivity.
Qed.

Lemma lines_at_length (all_lines : list (list ascii)) i :
  i * max_lines_per_chunk < length all_lines ->
  1 <= length (lines_at all_lines i) <= max_lines_per_chunk.
Proof.
  intros H. unfold lines_at. rewrite length_take, length_drop.
  unfold max_lines_per_chunk in *. lia.
Qed.

Lemma nth_error_map_seq {A} (f : nat -> A) k :
  forall a i x,
    nth_error (map f (seq a k)) i = Some x -> i < k /\ x = f (a + i).
Proof.
  induction k as [|k IH]; intros a i x H.
  - destruct i; discriminate.
  - destruct i as [|i]; simpl in H.
    + injection H as <-. split; [lia | f_equal; lia].
    + apply IH in H as [H ->]. split; [lia | f_equal; lia].
Qed.

Lemma chunk_index_in_file n k i :
  (k - 1) * max_lines_per_chunk < n -> i < k ->
  i * max_lines_per_chunk < n.
Proof. unfold max_lines_per_chunk. intros H1 H2. nia. Qed.

(** X17. The blocks of a file, whatever its size: there are as many as
    the number of lines divided by 55, rounded up; the block with index [i]
    starts at line [55 i + 1], is marked first only for [i = 0] and last
    only for the highest index, and holds the lines from there on, at least
    one and at most 55; the lines of all blocks, in order, are the lines of
    the file. *)
Theorem chunks_partition_file (code_content : list ascii) :
  length (chunks code_content)
  = (length (Py.split_nl code_content) + max_lines_per_chunk - 1)
    / max_lines_per_chunk
  /\ concat (map lines (chunks code_content)) = Py.split_nl code_content
  /\ forall i f,
       nth_error (chunks code_content) i = Some f ->
       start_line f = i * max_lines_per_chunk + 1
       /\ is_first_chunk f = (i =? 0)
       /\ is_last_chunk f = (i =? length (chunks code_content) - 1)
       /\ lines f = lines_at (Py.split_nl code_content) i
       /\ 1 <= length (lines f) <= max_lines_per_chunk.
Proof.
  pose proof (split_nl_length code_content) as Hlen.
  destruct (num_chunks_bounds _ Hlen) as [Hup [Hlow Hpos]].
  destruct (Nat.le_gt_cases (length (Py.split_nl code_content))
              max_lines_per_chunk) as [Hsmall | Hbig].
  - assert (E : chunks code_content = [whole_file code_content]).
    { unfold chunks. rewrite (proj2 (Nat.ltb_ge _ _) Hsmall). reflexivity. }
    assert (Hone : (length (Py.split_nl code_content)
                    + max_lines_per_chunk - 1) / max_lines_per_chunk = 1)
      by (unfold max_lines_per_chunk in *; lia).
    assert (Hall : lines_at (Py.split_nl code_content) 0
                   = Py.split_nl code_content).
    { unfold lines_at. rewrite drop_0. apply take_ge. exact Hsmall. }
    rewrite E, Hone. split; [reflexivity|]. split.
    + simpl. apply app_nil_r.
    + intros [|i] f H; simpl in H; [|destruct i; discriminate].
      injection H as <-. unfold whole_file, lines.
      cbn [start_line is_first_chunk is_last_chunk code].
      rewrite Hall. repeat split; [exact Hlen | exact Hsmall].
  - rewrite (chunks_map _ Hbig), length_map, length_seq.
    split; [reflexivity|]. split.
    + rewrite map_map.
      rewrite (map_ext_in _ (lines_at (Py.split_nl code_content))).
      * rewrite lines_at_concat, drop_0. apply take_ge. exact Hup.
      * intros i Hi. apply in_seq in Hi. apply lines_chunk_at.
        apply (chunk_index_in_file _ _ _ Hlow). lia.
    + intros i f H. apply nth_error_map_seq in H as [Hi ->].
      pose proof (chunk_index_in_file _ _ _ Hlow Hi) as Hin.
      rewrite lines_chunk_at by exact Hin.
      repeat split; try apply (lines_at_length _ _ Hin).
Qed.

(** *** Drawing block after block *)

Lemma draw_lines_nil n st : draw_lines n [] st = [].
Proof. reflexivity. Qed.

Lemma draw_lines_app l1 :
  forall n l2 st,
    draw_lines n (l1 ++ l2) st
    = draw_lines n l1 st
      ++ draw_lines (n + length l1) l2 (line_state st l1).
Proof.
  induction l1 as [|l l1 IH]; intros n l2 st.
  - simpl. rewrite Nat.add_0_r. reflexivity.
  - cbn [app draw_lines].
    destruct (draw_highlighted_line l st) as [spans st'] eqn:E.
    cbn [app]. f_equal. rewrite IH. do 2 f_equal; [simpl; lia|].
    unfold line_state. cbn [fold_left]. rewrite E. reflexivity.
Qed.

Lemma draw_lines_numbers ls :
  forall n st, map fst (draw_lines n ls st) = seq n (length ls).
Proof.
  induction ls as [|l ls IH]; intros n st; [reflexivity|].
  cbn [draw_lines]. destruct (draw_highlighted_line l st) as [spans st'].
  simpl. rewrite IH. reflexivity.
Qed.

Lemma line_state_app st l1 l2 :
  line_state st (l1 ++ l2) = line_state (line_state st l1) l2.
Proof. unfold line_state. apply fold_left_app. Qed.

(** The blocks, each drawn from the state the lines before it lead to, give
    what the lines give when drawn in one go. *)
Lemma draw_lines_concat (all_lines : list (list ascii)) k :
  forall a,
    concat (map (fun i =>
                   draw_lines (i * max_lines_per_chunk + 1)
                     (lines_at all_lines i)
                     (line_state false
                        (Py.upto (i * max_lines_per_chunk) all_lines)))
              (seq a k))
    = draw_lines (a * max_lines_per_chunk + 1)
        (firstn (k * max_lines_per_chunk)
           (skipn (a * max_lines_per_chunk) all_lines))
        (line_state false (Py.upto (a * max_lines_per_chunk) all_lines)).
Proof.
  induction k as [|k IH]; intros a; [reflexivity|].
  cbn [seq map concat]. rewrite IH.
  change (S k * max_lines_per_chunk)
    with (max_lines_per_chunk + k * max_lines_per_chunk).
  rewrite <- take_take_drop, drop_drop.
  fold (lines_at all_lines a). rewrite draw_lines_app. f_equal.
  replace (S a * max_lines_per_chunk)
    with (a * max_lines_per_chunk + max_lines_per_chunk) by lia.
  rewrite <- line_state_app. unfold Py.upto at 2, lines_at at 2.
  rewrite take_take_drop.
  destruct (Nat.le_gt_cases (length all_lines)
              (a * max_lines_per_chunk + max_lines_per_chunk)) as [H | H].
  - rewrite (drop_ge all_lines) by exact H.
    rewrite take_nil, !draw_lines_nil. reflexivity.
  - replace (length (lines_at all_lines a)) with max_lines_per_chunk.
    + unfold Py.upto. f_equal. lia.
    + unfold lines_at. rewrite length_take, length_drop.
      unfold max_lines_per_chunk in *. lia.
Qed.

Lemma draw_chunk_at code_content n i :
  i * max_lines_per_chunk < length (Py.split_nl code_content) ->
  Forall steady (Py.split_nl code_content) ->
  draw (chunk_at (Py.split_nl code_content) n i)
  = draw_lines (i * max_lines_per_chunk + 1)
      (lines_at (Py.split_nl code_content) i)
      (line_state false
         (Py.upto (i * max_lines_per_chunk) (Py.split_nl code_content))).
Proof.
  intros Hi Hs. unfold draw. rewrite lines_chunk_at by exact Hi.
  unfold chunk_at. cbn [start_line in_block_comment].
  rewrite steady_scan by (apply Forall_take, Hs). reflexivity.
Qed.

(** X18. Chunking does not show in what is drawn: if no line of the file
    leaves a comment open while holding a [*/], the blocks of the file,
    drawn one after the other, give the same numbered lines and spans as
    the whole file drawn as one block. *)
Theorem chunked_drawing_is_whole_drawing (code_content : list ascii) :
  Forall steady (Py.split_nl code_content) ->
  concat (map draw (chunks code_content)) = draw (whole_file code_content).
Proof.
  intros Hs. pose proof (split_nl_length code_content) as Hlen.
  destruct (num_chunks_bounds _ Hlen) as [Hup [Hlow Hpos]].
  destruct (Nat.le_gt_cases (length (Py.split_nl code_content))
              max_lines_per_chunk) as [Hsmall | Hbig].
  - unfold chunks. rewrite (proj2 (Nat.ltb_ge _ _) Hsmall).
    simpl. apply app_nil_r.
  - rewrite (chunks_map _ Hbig), map_map.
    rewrite (map_ext_in _
               (fun i => draw_lines (i * max_lines_per_chunk + 1)
                           (lines_at (Py.split_nl code_content) i)
                           (line_state false
                              (Py.upto (i * max_lines_per_chunk)
                                 (Py.split_nl code_content))))).
    + rewrite draw_lines_concat, drop_0, take_ge by exact Hup.
      reflexivity.
    + intros i Hi. apply in_seq in Hi. apply draw_chunk_at; [|exact Hs].
      apply (chunk_index_in_file _ _ _ Hlow). lia.
Qed.

Lemma chunked_drawing_is_whole_drawing_witness :
  Forall steady (Py.split_nl open_comment_file)
  /\ concat (map draw (chunks open_comment_file))
     = draw (whole_file open_comment_file).
Proof.
  assert (Hs : Forall steady (Py.split_nl open_comment_file))
    by (apply steady_check; vm_compute; reflexivity).
  split; [exact Hs | exact (chunked_drawing_is_whole_drawing _ Hs)].
Defined.

(** X19. Line numbers: a block numbers its lines from its [start_line]
    upwards without a gap, and over the blocks of a file the numbers run
    from 1 to the number of lines of the file, each once and in order. *)
Theorem line_numbers_run_through (code_content : list ascii) :
  (forall f, map fst (draw f) = seq (start_line f) (length (lines f)))
  /\ concat (map (fun f => map fst (draw f)) (chunks code_content))
     = seq 1 (length (Py.split_nl code_content)).
Proof.
  split; [intros f; apply draw_lines_numbers|].
  pose proof (split_nl_length code_content) as Hlen.
  destruct (num_chunks_bounds _ Hlen) as [Hup [Hlow Hpos]].
  destruct (Nat.le_gt_cases (length (Py.split_nl code_content))
              max_lines_per_chunk) as [Hsmall | Hbig].
  - unfold chunks. rewrite (proj2 (Nat.ltb_ge _ _) Hsmall).
    simpl. rewrite app_nil_r. apply draw_lines_numbers.
  - rewrite (chunks_map _ Hbig), map_map.
    rewrite (map_ext_in _
               (fun i => map fst
                           (draw_lines (i * max_lines_per_chunk + 1)
                              (lines_at (Py.split_nl code_content) i)
                              (line_state false
                                 (Py.upto (i * max_lines_per_chunk)
                                    (Py.split_nl code_content)))))).
    + rewrite <- map_map with (g := map fst).
      rewrite <- concat_map, draw_lines_concat, draw_lines_numbers.
      rewrite drop_0, take_ge by exact Hup. reflexivity.
    + intros i Hi. apply in_seq in Hi. unfold draw.
      rewrite !draw_lines_numbers, lines_chunk_at; [reflexivity|].
      apply (chunk_index_in_file _ _ _ Hlow). lia.
Qed.

Lemma chunks_partition_file_witness :
  nth_error (chunks (repeat Py.newline 109)) 1
  = Some (mkFlowable (repeat Py.newline 54) 56 false true false)
  /\ start_line (mkFlowable (repeat Py.newline 54) 56 false true false)
     = 1 * max_lines_per_chunk + 1
  /\ lines (mkFlowable (repeat Py.newline 54) 56 false true false)
     = lines_at (Py.split_nl (repeat Py.newline 109)) 1.
Proof.
  assert (H : nth_error (chunks (repeat Py.newline 109)) 1
              = Some (mkFlowable (repeat Py.newline 54) 56 false true false))
    by (vm_compute; reflexivity).
  split; [exact H|].
  destruct (proj2 (proj2 (chunks_partition_file (repeat Py.newline 109)))
              1 _ H) as [H1 [_ [_ [H4 _]]]].
  split; [exact H1 | exact H4].
Defined.

(** ** The command line *)

Ltac split_option_ifs :=
  repeat match goal with
         | |- context [if ?b then _ else _] => destruct b
         end.

Lemma option_loop_app n :
  forall xs, length xs <= n ->
    forall o o1 ys,
      option_loop o xs = Run o1 ->
      option_loop o (xs ++ ys) = option_loop o1 ys.
Proof.
  induction n as [|n IH]; intros xs Hn o o1 ys H.
  - destruct xs; [|simpl in Hn; lia].
    injection H as <-. reflexivity.
  - destruct xs as [|a rest]; [injection H as <-; reflexivity|].
    simpl in Hn. revert H. cbn [option_loop app].
    split_option_ifs;
      try (destruct rest as [|v rest']; [discriminate|]; cbn [app];
           try destruct (THEMES !! lower v); try discriminate;
           apply IH; simpl in Hn; lia);
      try (apply IH; lia); discriminate.
Qed.

Lemma option_loop_theme n :
  forall args, length args <= n ->
    forall o o1,
      option_loop o args = Run o1 ->
      is_Some (THEMES !! selected_theme o) ->
      is_Some (THEMES !! selected_theme o1)
      /\ code_file o1 = code_file o.
Proof.
  induction n as [|n IH]; intros args Hn o o1 H Ho.
  - destruct args; [|simpl in Hn; lia].
    injection H as <-. auto.
  - destruct args as [|a rest]; [injection H as <-; auto|].
    simpl in Hn. revert H. cbn [option_loop].
    split_option_ifs.
    all: try (destruct rest as [|v rest']; [discriminate|]).
    all: try (destruct (THEMES !! lower v) eqn:Et; [|discriminate]).
    all: try discriminate.
    all: intros H; apply IH in H;
      [ exact H
      | simpl in Hn; lia
      | first [ exact Ho
              | cbn [selected_theme]; rewrite Et; eexists; reflexivity ] ].
Qed.

(** X20. [main] calls [create_pdf] only with a theme that is a key of
    [THEMES] (the default, or a name given with [--theme], in lower case),
    so the lookups [THEMES[SELECTED_THEME]] of the drawing code find their
    palette; the file converted is the first argument. *)
Theorem main_runs_with_known_theme (argv : list string) (o : Options) :
  main argv = Run o ->
  is_Some (THEMES !! selected_theme o)
  /\ nth_error argv 1 = Some (code_file o).
Proof.
  unfold main, main_with. destruct argv as [|prog [|file args]];
    try discriminate.
  intros H. apply (option_loop_theme (length args)) in H as [H1 H2];
    [| lia | vm_compute; eauto].
  split; [exact H1 | simpl; f_equal; symmetry; exact H2].
Qed.

Lemma main_runs_with_known_theme_witness :
  main ["cli.py"; "main.cpp"; "--theme"; "Catppuccin-LATTE"; "-n"; "Ada"]
  = Run (mkOptions "main.cpp" None "Ada" "" "" true "catppuccin-latte")
  /\ is_Some (THEMES !! "catppuccin-latte")
  /\ nth_error
       ["cli.py"; "main.cpp"; "--theme"; "Catppuccin-LATTE"; "-n"; "Ada"] 1
     = Some "main.cpp".
Proof.
  assert (H : main ["cli.py"; "main.cpp"; "--theme"; "Catppuccin-LATTE";
                    "-n"; "Ada"]
              = Run (mkOptions "main.cpp" None "Ada" "" "" true
                       "catppuccin-latte"))
    by (vm_compute; reflexivity).
  split; [exact H | exact (main_runs_with_known_theme _ _ H)].
Defined.



Lemma value_option_alone o a :
  In a value_options -> option_loop o [a] = IndexError.
Proof.
  simpl. intros H.
  repeat (destruct H as [<- | H]; [reflexivity|]). destruct H.
Qed.

Lemma not_among a xs :
  (forall x, In x xs -> a <> x) -> among a xs = false.
Proof.
  unfold among. induction xs as [|x xs IH]; intros H; [reflexivity|].
  simpl. rewrite (proj2 (String.eqb_neq a x)) by (apply H; left; reflexivity).
  apply IH. intros y Hy. apply H. right. exact Hy.
Qed.

Lemma unknown_option_stops o a rest :
  ~ In a value_options -> a <> "--no-project"%string ->
  option_loop o (a :: rest) = UnknownOption a.
Proof.
  intros Hv Hn. cbn [option_loop].
  rewrite (proj2 (String.eqb_neq a "--theme"))
    by (intros ->; apply Hv; simpl; tauto).
  rewrite !not_among
    by (intros x Hx E; subst x; apply Hv; simpl in *; tauto).
  rewrite (proj2 (String.eqb_neq a "--no-project")) by exact Hn.
  reflexivity.
Qed.

(** X22. How [main] ends without converting, after arguments that were
    read without fault: an option that takes a value and stands last
    raises [IndexError]; a theme that is not a key of [THEMES] after
    lowering ends the run with exit status 1, whatever follows it; so does
    any argument in the place of an option that is none. *)
Theorem main_stops_on_bad_arguments (o o1 : Options) (xs : list string) :
  option_loop o xs = Run o1 ->
  (forall a, In a value_options ->
             option_loop o (xs ++ [a]) = IndexError)
  /\ (forall v rest, THEMES !! lower v = None ->
        option_loop o (xs ++ "--theme"%string :: v :: rest)
        = UnknownTheme (lower v))
  /\ (forall a rest, ~ In a value_options -> a <> "--no-project"%string ->
        option_loop o (xs ++ a :: rest) = UnknownOption a).
Proof.
  intros H. repeat split; intros;
    rewrite (option_loop_app (length xs) xs (le_n _) _ _ _ H).
  - apply value_option_alone. assumption.
  - cbn [option_loop]. simpl String.eqb.
    match goal with E : _ = None |- _ => rewrite E end. reflexivity.
  - apply unknown_option_stops; assumption.
Qed.

Lemma main_stops_on_bad_arguments_witness :
  option_loop (mkOptions "a.cpp" None "" "" "" true "kanagawa-wave")
    ["--no-project"]
  = Run (mkOptions "a.cpp" None "" "" "" false "kanagawa-wave")
  /\ option_loop (mkOptions "a.cpp" None "" "" "" true "kanagawa-wave")
       (["--no-project"] ++ ["-o"])
     = IndexError
  /\ option_loop (mkOptions "a.cpp" None "" "" "" true "kanagawa-wave")
       (["--no-project"] ++ ["--theme"; "Solarized"; "--bogus"])
     = UnknownTheme "solarized".
Proof.
  assert (H : option_loop
                (mkOptions "a.cpp" None "" "" "" true "kanagawa-wave")
                ["--no-project"]
              = Run (mkOptions "a.cpp" None "" "" "" false "kanagawa-wave"))
    by reflexivity.
  destruct (main_stops_on_bad_arguments _ _ _ H) as [H1 [H2 _]].
  split; [exact H|]. split.
  - apply H1. simpl. tauto.
  - apply (H2 "Solarized"%string ["--bogus"%string]). vm_compute.
    reflexivity.
Defined.

(** ** Heights *)

Lemma baselines_from_bounds ls :
  forall y,
    Forall (fun b => (y - line_height * (Z.of_nat (length ls) - 1) <= b <= y)%Z)
      (baselines_from y ls)
    /\ length (baselines_from y ls) = length ls.
Proof.
  induction ls as [|l ls IH]; intros y; cbn [baselines_from length].
  - split; constructor.
  - destruct (IH (y - line_height)%Z) as [IH1 IH2]. split.
    + constructor; [unfold line_height; lia|].
      eapply Forall_impl; [exact IH1|].
      intros b Hb. cbv beta in Hb |- *. unfold line_height in *. lia.
    + rewrite IH2. reflexivity.
Qed.

(** X23. The text of a block stays inside its background, and the
    background inside the height the block asks for: every line is drawn at
    a height of at least 11 points above the lower edge and at least 5
    points below the upper edge of the background, one position for each
    line, and [wrap] reserves at least 4 points more than [draw] fills. *)
Theorem block_heights (f : SyntaxHighlightedCode) :
  (draw_height f + 4 <= wrap_height f)%Z
  /\ length (baselines f) = length (lines f)
  /\ Forall (fun y => (11 <= y <= draw_height f - 5)%Z) (baselines f).
Proof.
  unfold draw_height, wrap_height, baselines, padding_top, padding_bottom.
  pose proof (split_nl_length (code f)) as Hlen. fold (lines f) in Hlen.
  set (n := length (lines f)) in *.
  destruct (baselines_from_bounds (lines f)
              (Z.of_nat n * line_height
               + (if is_first_chunk f then 10 else 5) - 5)%Z) as [B1 B2].
  fold n in B1. unfold line_height in *.
  split; [destruct (is_first_chunk f), (is_last_chunk f); lia|].
  split; [exact B2|].
  eapply Forall_impl; [exact B1|]. intros y Hy. cbv beta in Hy.
  destruct (is_first_chunk f), (is_last_chunk f); lia.
Qed.

(** ** Numbers: the tokenizer and the classifier agree *)

Section Numbers.
Import Re.

(** The matcher is complete for patterns without [$]: if a text of the
    language starts the subject and the rest of the pattern accepts what
    follows, the match succeeds. *)
Lemma star_loop_complete (L : list ascii -> Prop) body k v :
  (forall u w kk, L u -> kk w <> None -> body (u ++ w) kk <> None) ->
  k v <> None ->
  forall u, star_lang L u ->
    forall n, length (u ++ v) <= n ->
      star_loop body k n (u ++ v) <> None.
Proof.
  intros Hbody Hk. induction 1 as [|u1 u2 L1 S2 IH]; intros n Hn.
  - destruct n; simpl; [exact Hk|].
    match goal with
    | |- match ?b with _ => _ end <> _ => destruct b
    end; [discriminate | exact Hk].
  - destruct u1 as [|c u1]; [apply IH; exact Hn|].
    destruct n as [|n]; [simpl in Hn; lia|].
    cbn [star_loop].
    match goal with
    | |- match ?b with _ => _ end <> _ => destruct b eqn:E
    end; [discriminate|].
    exfalso. revert E. rewrite <- app_assoc. apply Hbody; [exact L1|].
    rewrite (proj2 (Nat.ltb_lt _ _))
      by (cbn [app length]; rewrite !length_app; lia).
    apply IH. simpl in Hn. rewrite !length_app in *. lia.
Qed.

Lemma run_complete r :
  no_eos r = true ->
  forall u v k, lang r u -> k v <> None -> run r (u ++ v) k <> None.
Proof.
  induction r as [|p|r1 IH1 r2 IH2|r1 IH1 r2 IH2|r1 IH1|];
    intros Hn u v k Hl Hk; simpl in Hn, Hl; try discriminate.
  - subst u. exact Hk.
  - destruct Hl as [c [-> Hp]]. simpl. rewrite Hp. exact Hk.
  - apply andb_true_iff in Hn as [Hn1 Hn2].
    destruct Hl as [u1 [u2 [-> [L1 L2]]]].
    rewrite <- app_assoc, run_Seq. apply IH1; [exact Hn1 | exact L1|].
    apply IH2; assumption.
  - apply andb_true_iff in Hn as [Hn1 Hn2]. simpl.
    destruct (run r1 (u ++ v) k) eqn:E; [discriminate|].
    destruct Hl as [Hl | Hl].
    + exfalso. exact (IH1 Hn1 u v k Hl Hk E).
    + apply IH2; assumption.
  - rewrite run_Star.
    apply (star_loop_complete (lang r1)); [| exact Hk | exact Hl | lia].
    intros u' w kk. apply IH1. exact Hn.
Qed.

Lemma matches_anchored r tok :
  no_eos r = true -> lang r tok -> matches (Seq r Eos) tok = true.
Proof.
  intros Hn Hl. unfold matches. rewrite run_Seq.
  destruct (run r tok (fun s' => run Eos s' Some)) eqn:E; [reflexivity|].
  exfalso. revert E. rewrite <- (app_nil_r tok).
  apply run_complete; [exact Hn | exact Hl | discriminate].
Qed.

Lemma digit_token_is_number_text tok :
  lang token_pattern tok -> starts_with_digit tok = true ->
  lang (Alt hex_number dec_number) tok.
Proof.
  intros L Hd. apply lang_Alts in L as [r [Hin L]].
  assert (Hno : forall r', starts_in not_digit r' = true ->
                           lang r' tok -> False).
  { intros r' Hs L'. pose proof (lang_starts _ _ _ Hs L') as Hh.
    destruct tok as [|c t]; [discriminate|]. simpl in Hh, Hd.
    unfold not_digit in Hh. rewrite Hd in Hh. discriminate. }
  destruct Hin as [<- | [<- | [<- | [<- | Hin]]]].
  - exfalso. apply (Hno (quoted dquote)); [vm_compute; reflexivity | exact L].
  - exfalso. apply (Hno (quoted squote)); [vm_compute; reflexivity | exact L].
  - left. exact L.
  - right. exact L.
  - exfalso. apply (Hno r); [|exact L].
    assert (Hall : forallb (starts_in not_digit) (skipn 2 plain_alternatives)
                   = true) by (vm_compute; reflexivity).
    rewrite forallb_forall in Hall. apply Hall, Hin.
Qed.

Lemma mem_digit_false c t xs :
  forallb (fun c => implb (digit_chr c) (negb (head_among xs c)))
    all_chars = true ->
  digit_chr c = true -> Py.mem (c :: t) xs = false.
Proof.
  rewrite forallb_forall. intros Hall Hc.
  specialize (Hall c (in_all_chars c)). rewrite Hc in Hall. simpl in Hall.
  destruct (Py.mem (c :: t) xs) eqn:E; [|reflexivity].
  apply mem_head in E. rewrite E in Hall. discriminate.
Qed.

Lemma token_category_of_number prev token next :
  starts_with_digit token = true ->
  lang (Alt hex_number dec_number) token ->
  token_category prev token next = Number.
Proof.
  intros Hd L. destruct token as [|c t]; [discriminate|]. simpl in Hd.
  assert (Hq : not_quote c = true)
    by (revert Hd; apply subclass_sound; vm_compute; reflexivity).
  apply not_quote_chr in Hq as [Hdq Hsq].
  assert (Ri : rejects identifier_shape c = true).
  { assert (R : forallb (fun r => rejects r c) [identifier_shape] = true).
    { apply (class_rejected_sound digit_chr); [|exact Hd].
      vm_compute. reflexivity. }
    cbn [forallb] in R. rewrite andb_true_r in R. exact R. }
  unfold token_category. cbv zeta.
  change (Py.startswith (c :: t) [dquote]) with (Py.chr_eqb dquote c && true).
  change (Py.startswith (c :: t) [squote]) with (Py.chr_eqb squote c && true).
  rewrite Hdq, Hsq. cbn [andb orb].
  rewrite !(mem_digit_false c t) by (try exact Hd; vm_compute; reflexivity).
  rewrite !matches_rejected by exact Ri.
  rewrite !andb_false_r. cbn [andb].
  unfold number_shape. rewrite matches_anchored;
    [reflexivity | vm_compute; reflexivity | exact L].
Qed.

Lemma token_category_number_digit prev token next :
  token_category prev token next = Number ->
  starts_with_digit token = true.
Proof.
  unfold token_category. cbv zeta.
  destruct (matches number_shape token) eqn:E;
    [|split_ifs; discriminate].
  intros _. unfold matches in E.
  destruct (run number_shape token Some) as [rest|] eqn:R; [|discriminate].
  destruct (run_sound _ _ _ _ R) as [pre [rest' [-> [L _]]]].
  destruct L as [u [v [-> [L Lv]]]]. simpl in Lv. subst v.
  assert (Hs : starts_in digit_chr (Alt hex_number dec_number) = true)
    by (vm_compute; reflexivity).
  pose proof (lang_starts _ _ _ Hs L) as Hh.
  assert (Hne : u <> []).
  { apply (lang_nonempty (Alt hex_number dec_number));
      [reflexivity | exact L]. }
  destruct u as [|c u]; [congruence|]. exact Hh.
Qed.

(** X24. The number rule of the tokenizer and the number test of the
    classifier agree: a token of a line is drawn as a [Number] exactly when
    it starts with a digit, whatever stands next to it. *)
Theorem number_iff_starts_with_digit (line : list ascii) (i : nat)
    (sp : Span) :
  nth_error (draw_code_tokens line) i = Some sp ->
  (category sp = Number <-> starts_with_digit (text sp) = true).
Proof.
  rewrite draw_code_tokens_classify. intros H.
  apply classify_with_nth in H as [Ht Hc].
  assert (L : lang token_pattern (text sp)).
  { pose proof (tokenize_lang line) as Hall.
    rewrite List.Forall_forall in Hall. apply Hall.
    eapply nth_error_In, Ht. }
  rewrite Hc. split.
  - apply token_category_number_digit.
  - intros Hd. apply token_category_of_number; [exact Hd|].
    apply digit_token_is_number_text; assumption.
Qed.

End Numbers.

Lemma number_iff_starts_with_digit_witness :
  nth_error (draw_code_tokens (py "x = 0x1F + 3.5f;")) 4
  = Some (mkSpan (py "0x1F") Number)
  /\ (Number = Number <-> starts_with_digit (py "0x1F") = true).
Proof.
  assert (H : nth_error (draw_code_tokens (py "x = 0x1F + 3.5f;")) 4
              = Some (mkSpan (py "0x1F") Number))
    by (vm_compute; reflexivity).
  split; [exact H | exact (number_iff_starts_with_digit _ 4 _ H)].
Defined.

(** ** Names *)

Section Names.
Import Re.

Lemma name_token_is_identifier tok :
  lang token_pattern tok -> starts_name tok = true -> lang identifier tok.
Proof.
  intros L Hd. apply lang_Alts in L as [r [Hin L]].
  assert (Hno : forall r', starts_in not_ident_start r' = true ->
                           lang r' tok -> False).
  { intros r' Hs L'. pose proof (lang_starts _ _ _ Hs L') as Hh.
    destruct tok as [|c t]; [discriminate|]. simpl in Hh, Hd.
    unfold not_ident_start in Hh. rewrite Hd in Hh. discriminate. }
  destruct Hin as [<- | [<- | [<- | [<- | [<- | Hin]]]]].
  - exfalso. apply (Hno (quoted dquote)); [vm_compute; reflexivity | exact L].
  - exfalso. apply (Hno (quoted squote)); [vm_compute; reflexivity | exact L].
  - exfalso. apply (Hno hex_number); [vm_compute; reflexivity | exact L].
  - exfalso. apply (Hno dec_number); [vm_compute; reflexivity | exact L].
  - exact L.
  - exfalso. apply (Hno r); [|exact L].
    assert (Hall : forallb (starts_in not_ident_start)
                     (skipn 3 plain_alternatives) = true)
      by (vm_compute; reflexivity).
    rewrite forallb_forall in Hall. apply Hall, Hin.
Qed.

Lemma mem_name_false c t xs :
  forallb (fun c => implb (ident_start_chr c) (negb (head_among xs c)))
    all_chars = true ->
  ident_start_chr c = true -> Py.mem (c :: t) xs = false.
Proof.
  rewrite forallb_forall. intros Hall Hc.
  specialize (Hall c (in_all_chars c)). rewrite Hc in Hall. simpl in Hall.
  destruct (Py.mem (c :: t) xs) eqn:E; [|reflexivity].
  apply mem_head in E. rewrite E in Hall. discriminate.
Qed.

Lemma next_is_paren next :
  match next with Some n => trimmed n | None => True end ->
  match next with
  | Some n => negb (Py.str_eqb n []) && Py.str_eqb (Py.strip n) (py "(")
  | None => false
  end = is_token next "(".
Proof.
  destruct next as [n|]; [|reflexivity]. intros Ht. unfold is_token.
  destruct (Py.str_eqb n (py "(")) eqn:E.
  - apply str_eqb_eq in E. subst n. reflexivity.
  - destruct (Py.str_eqb (Py.strip n) (py "(")) eqn:Es;
      [|apply andb_false_r].
    apply str_eqb_eq in Es.
    apply (trimmed_strip _ _ Ht) in Es; [|discriminate].
    subst n. discriminate.
Qed.

Lemma prev_in_members prev :
  match prev with
  | Some p => Py.mem p ["."; "->"]%string
  | None => false
  end = is_token prev "." || is_token prev "->".
Proof.
  destruct prev as [p|]; [|reflexivity].
  unfold Py.mem, is_token. simpl. rewrite orb_false_r. reflexivity.
Qed.

Lemma prev_in_namespace prev :
  match prev with
  | Some p => Py.mem p ["::"]%string
  | None => false
  end = is_token prev "::".
Proof.
  destruct prev as [p|]; [|reflexivity].
  unfold Py.mem, is_token. simpl. apply orb_false_r.
Qed.

Lemma token_category_of_name prev token next :
  starts_name token = true -> lang identifier token ->
  Py.mem token keywords = false -> Py.mem token types = false ->
  match next with Some n => trimmed n | None => True end ->
  token_category prev token next = name_category prev next.
Proof.
  intros Hd L Hk Hty Hn. destruct token as [|c t]; [discriminate|].
  simpl in Hd.
  assert (Hq : not_quote c = true)
    by (revert Hd; apply subclass_sound; vm_compute; reflexivity).
  apply not_quote_chr in Hq as [Hdq Hsq].
  assert (Hsp : Py.isspace_chr c = false).
  { apply negb_true_iff. revert Hd.
    apply (subclass_sound ident_start_chr not_space).
    vm_compute. reflexivity. }
  assert (Rn : rejects number_shape c = true).
  { assert (R : forallb (fun r => rejects r c) [number_shape] = true).
    { apply (class_rejected_sound ident_start_chr); [|exact Hd].
      vm_compute. reflexivity. }
    cbn [forallb] in R. rewrite andb_true_r in R. exact R. }
  assert (Hm : matches identifier_shape (c :: t) = true)
    by (apply matches_anchored; [vm_compute; reflexivity | exact L]).
  unfold token_category, name_category. cbv zeta.
  change (Py.startswith (c :: t) [dquote]) with (Py.chr_eqb dquote c && true).
  change (Py.startswith (c :: t) [squote]) with (Py.chr_eqb squote c && true).
  rewrite Hdq, Hsq, Hk, Hty, Hm. cbn [andb orb].
  rewrite (next_is_paren next Hn), prev_in_members, prev_in_namespace.
  rewrite !andb_true_r.
  rewrite !(mem_name_false c t) by (try exact Hd; vm_compute; reflexivity).
  rewrite (matches_rejected _ _ _ Rn).
  change (Py.isspace (c :: t))
    with (Py.isspace_chr c && forallb Py.isspace_chr t).
  rewrite Hsp. reflexivity.
Qed.

(** X25. How a name is drawn.  A token of a line that starts with a letter
    or underscore and is in neither vocabulary is a [FunctionCall] if the
    next element of the stream is the token [(]; else a [MemberAccess] if
    the element before it is [.] or [->]; else a [NamespaceAccess] if that
    element is [::]; else a plain [Identifier]. *)
Theorem name_is_drawn_by_its_neighbours (line : list ascii) (i : nat)
    (sp : Span) :
  nth_error (draw_code_tokens line) i = Some sp ->
  starts_name (text sp) = true ->
  Py.mem (text sp) keywords = false ->
  Py.mem (text sp) types = false ->
  category sp
  = name_category
      (match i with O => None | S j => nth_error (tokenize line) j end)
      (nth_error (tokenize line) (S i)).
Proof.
  rewrite draw_code_tokens_classify. intros H Hd Hk Hty.
  apply classify_with_nth in H as [Ht Hc]. rewrite Hc.
  pose proof (tokenize_lang line) as Hall.
  pose proof (tokenize_trimmed line) as Htr.
  rewrite List.Forall_forall in Hall, Htr.
  apply token_category_of_name; try assumption.
  - apply name_token_is_identifier; [|exact Hd].
    apply Hall. eapply nth_error_In, Ht.
  - destruct (nth_error (tokenize line) (S i)) as [n|] eqn:En; [|exact I].
    apply Htr. eapply nth_error_In, En.
Qed.

End Names.

Lemma name_is_drawn_by_its_neighbours_witness :
  nth_error (draw_code_tokens (py "p->run(x)")) 2
  = Some (mkSpan (py "run") FunctionCall)
  /\ starts_name (py "run") = true
  /\ Py.mem (py "run") keywords = false
  /\ Py.mem (py "run") types = false
  /\ FunctionCall
     = name_category (nth_error (tokenize (py "p->run(x)")) 1)
         (nth_error (tokenize (py "p->run(x)")) 3).
Proof.
  assert (H : nth_error (draw_code_tokens (py "p->run(x)")) 2
              = Some (mkSpan (py "run") FunctionCall))
    by (vm_compute; reflexivity).
  split; [exact H|]. do 3 (split; [reflexivity|]).
  exact (name_is_drawn_by_its_neighbours (py "p->run(x)") 2 _ H
           eq_refl eq_refl eq_refl).
Defined.

(** ** A comment over several lines *)

Lemma draw_lines_in_comment ls :
  Forall (fun l => ~ occurs (py "*/") l) ls ->
  forall n,
    draw_lines n ls true
    = combine (seq n (length ls))
        (map (fun l => [mkSpan l BlockComment]) ls)
    /\ line_state true ls = true.
Proof.
  induction 1 as [|l ls Hl _ IH]; intros n; [split; reflexivity|].
  apply find_None in Hl.
  assert (E : draw_highlighted_line l true = ([mkSpan l BlockComment], true))
    by (unfold draw_highlighted_line; rewrite Hl; reflexivity).
  destruct (IH (S n)) as [IH1 IH2]. split.
  - cbn [draw_lines]. rewrite E, IH1. reflexivity.
  - unfold line_state in *. cbn [fold_left]. rewrite E. exact IH2.
Qed.

(** X26. A comment that stays open runs on: lines drawn from inside a block
    comment, none of which holds a [*/], are each one [BlockComment] span
    with the whole line as text, under consecutive line numbers, and the
    state after them is still inside the comment. *)
Theorem open_comment_runs_over_lines (ls : list (list ascii)) (n : nat) :
  Forall (fun l => ~ occurs (py "*/") l) ls ->
  draw_lines n ls true
  = combine (seq n (length ls)) (map (fun l => [mkSpan l BlockComment]) ls)
  /\ line_state true ls = true.
Proof. intros H. apply draw_lines_in_comment, H. Qed.

Lemma open_comment_runs_over_lines_witness :
  Forall (fun l => ~ occurs (py "*/") l) [py " * a note"; py " * int x;"]
  /\ draw_lines 7 [py " * a note"; py " * int x;"] true
     = combine (seq 7 2)
         (map (fun l => [mkSpan l BlockComment])
            [py " * a note"; py " * int x;"])
  /\ line_state true [py " * a note"; py " * int x;"] = true.
Proof.
  assert (H : Forall (fun l => ~ occurs (py "*/") l)
                [py " * a note"; py " * int x;"])
    by (repeat constructor; apply find_None; reflexivity).
  split; [exact H | exact (open_comment_runs_over_lines _ 7 H)].
Defined.
